(** * Back2U: claim-resolution notifications (backend/utils/notification.py)

    A shallow embedding of the notification module and the properties of
    its workflow.  The module talks to three collaborators: the database
    handle [db] (config/db_connector.py), the SMTP transport and the
    process environment.  They are modelled by an explicit [World] that is
    threaded through a state-and-exception monad [M].

    Conventions of the model.
    - An exception is represented by its message text, the [str(e)] that
      the handlers interpolate into their diagnostics.
    - Every call on a database cursor, [db.get_cursor], [db.conn.commit],
      [db.close] and every call on the SMTP transport may raise, and so
      may the two library functions that the guarded block of
      [send_email] applies to data: [int] on the value of EMAIL_PORT and
      [as_string] on the message.  Whether a call raises is decided by the
      oracle [faults] of the world, which sees the history of all earlier
      calls; theorems quantify over every oracle.  Nothing is assumed on
      which strings [int] reads or which messages [as_string] renders.
    - Standard output and the two append-only files ([email_debug.log],
      [crash_debug.log]) are lists of lines.  The files are taken to be
      writable: [print] and appending a line always succeed.
    - [history] is a history variable: the sequence of collaborator calls
      with their outcome, plus one [EvSent] entry for each value handed
      back by [send_email].  No modelled code reads it. *)

From Stdlib Require Import ZArith Lia Ascii String.
From stdpp Require Import base strings list gmap pretty.

Local Open Scope Z_scope.
Local Open Scope string_scope.
Local Open Scope list_scope.

(** ** Data model *)

(** [str(e)] of a raised exception. *)
Definition Exn := string.

Inductive Res (A : Type) : Type :=
| Ok (a : A)
| Raise (e : Exn).
Arguments Ok {A} a.
Arguments Raise {A} e.

(** Tables [Users(user_id, email, name)], [Items(item_id, reported_by, title)]
    and [Notifications(user_id, message, type, status)]. *)
Record UserRow := { user_id : Z; email : string; name : string }.
Record ItemRow := { item_id : Z; reported_by : Z; title : string }.
Record NotificationRow :=
  { n_user_id : Z; n_message : string; n_type : string; n_status : string }.

(** Modelled from the spec: models/notification_model.py is not part of the
    sources; [Notification.TYPES] and [Notification.STATUSES] are tables
    from a key to the stored column value, with at least the keys EMAIL
    and SENT.  A row records the key it was built from. *)
Definition Notification_TYPES (key : string) : string := key.
Definition Notification_STATUSES (key : string) : string := key.

(** A row as handed back by a dictionary cursor: the selected columns. *)
Inductive Row :=
| RowItem (reported_by : Z) (title : string)
| RowUser (email name : string).

Inductive Query :=
| SelectItem (item_id : Z)
    (* SELECT reported_by, title FROM Items WHERE item_id = %s *)
| SelectUser (user_id : Z)
    (* SELECT email, name FROM Users WHERE user_id = %s *)
| InsertNotification (row : NotificationRow).
    (* INSERT INTO Notifications (user_id, message, type, status) VALUES ... *)

Record Cursor := { c_open : bool; c_rows : list Row }.

Record Db := {
  Users : list UserRow;
  Items : list ItemRow;
  Notifications : list NotificationRow;   (* committed rows *)
  uncommitted : list NotificationRow;     (* inserted, not yet committed *)
  connected : bool;                       (* the thread-local connection *)
  cursors : list Cursor                   (* cursor objects, by handle *)
}.

(** [MIMEMultipart] with its three headers and one plain-text part. *)
Record Message :=
  { m_from : string; m_to : string; m_subject : string; m_body : string }.

Record Smtp := {
  sessions : nat;                               (* SMTP objects created *)
  outbox : list (string * string * Message)     (* accepted by sendmail *)
}.

Record Output := {
  stdout : list string;
  email_debug_log : list string;
  crash_debug_log : list string
}.

(** The port handed to [smtplib.SMTP]: the number 587, or whatever integer
    [int] reads off the value [s] of EMAIL_PORT.  The integer itself plays
    no part in the module, so it is kept as [int(s)]. *)
Inductive Port :=
| PortNumber (n : Z)
| PortRead (s : string).

(** Calls on the collaborators.  A call that creates an object carries the
    handle the object gets. *)
Inductive Call :=
| CGetCursor (h : nat) (dictionary : bool)
| CExecute (h : nat) (q : Query)
| CFetchone (h : nat)
| CCursorClose (h : nat)
| CCommit
| CSmtp (s : nat) (host : option string) (port : Port)
| CStarttls (s : nat)
| CLogin (s : nat) (user password : option string)
| CSendmail (s : nat) (sender recipient : string) (msg : Message)
| CQuit (s : nat)
| CDbClose
| CInt (s : string)
| CAsString (msg : Message).

Inductive Event :=
| EvCall (c : Call) (raised : option Exn)
| EvSent (recipient : string) (ok : bool).

Record World := {
  environ : gmap string string;
  db : Db;
  smtp : Smtp;
  out : Output;
  history : list Event;
  faults : list Event → Call → option Exn
}.

(** Field updates. *)
Definition set_db (f : Db → Db) (w : World) : World :=
  {| environ := environ w; db := f (db w); smtp := smtp w; out := out w;
     history := history w; faults := faults w |}.
Definition set_smtp (f : Smtp → Smtp) (w : World) : World :=
  {| environ := environ w; db := db w; smtp := f (smtp w); out := out w;
     history := history w; faults := faults w |}.
Definition set_out (f : Output → Output) (w : World) : World :=
  {| environ := environ w; db := db w; smtp := smtp w; out := f (out w);
     history := history w; faults := faults w |}.
Definition note (ev : Event) (w : World) : World :=
  {| environ := environ w; db := db w; smtp := smtp w; out := out w;
     history := history w ++ [ev]; faults := faults w |}.

Definition set_cursors (f : list Cursor → list Cursor) (d : Db) : Db :=
  {| Users := Users d; Items := Items d; Notifications := Notifications d;
     uncommitted := uncommitted d; connected := connected d;
     cursors := f (cursors d) |}.

(** ** The monad: state and exceptions *)

Definition M (A : Type) : Type := World → Res A * World.

Definition ret {A} (a : A) : M A := λ w, (Ok a, w).
Definition raise {A} (e : Exn) : M A := λ w, (Raise e, w).
Definition bind {A B} (m : M A) (k : A → M B) : M B := λ w,
  match m w with
  | (Ok a, w') => k a w'
  | (Raise e, w') => (Raise e, w')
  end.

(** [try: body  except Exception as e: handler e] *)
Definition try_except {A} (body : M A) (handler : Exn → M A) : M A := λ w,
  match body w with
  | (Ok a, w') => (Ok a, w')
  | (Raise e, w') => handler e w'
  end.

(** [try: body  finally: final].  The [finally] suite also runs when the
    body returns early or raises; an exception of [final] replaces the
    outcome of the body. *)
Definition try_finally {A} (body : M A) (final : M unit) : M A := λ w,
  match body w with
  | (r, w') =>
      match final w' with
      | (Ok _, w'') => (r, w'')
      | (Raise e, w'') => (Raise e, w'')
      end
  end.

Declare Scope py_scope.
Delimit Scope py_scope with py.
Notation "x <- m ;; k" := (bind m (λ x, k))
  (at level 100, m at next level, right associativity) : py_scope.
Notation "m ;;; k" := (bind m (λ _, k))
  (at level 100, right associativity) : py_scope.
Local Open Scope py_scope.

(** ** Output *)

Definition print (line : string) : M unit := λ w,
  (Ok tt, set_out (λ o, {| stdout := stdout o ++ [line];
                            email_debug_log := email_debug_log o;
                            crash_debug_log := crash_debug_log o |}) w).

(** [with open("email_debug.log", "a") as f: f.write(line + "\n")] *)
Definition append_email_debug (line : string) : M unit := λ w,
  (Ok tt, set_out (λ o, {| stdout := stdout o;
                            email_debug_log := email_debug_log o ++ [line];
                            crash_debug_log := crash_debug_log o |}) w).

Definition log_debug (msg : string) : M unit := λ w,
  (Ok tt, set_out (λ o, {| stdout := stdout o;
                            email_debug_log := email_debug_log o;
                            crash_debug_log := crash_debug_log o ++ [msg] |}) w).

(** ** Collaborator calls *)

Definition raised {A} (r : Res A) : option Exn :=
  match r with Ok _ => None | Raise e => Some e end.

(** A call first asks the oracle; when the oracle lets it through, [run]
    is the behaviour of the collaborator.  Either way the call and its
    outcome enter the history. *)
Definition call {A} (c : Call) (run : World → Res A * World) : M A := λ w,
  match faults w (history w) c with
  | Some e => (Raise e, note (EvCall c (Some e)) w)
  | None => match run w with
            | (r, w') => (r, note (EvCall c (raised r)) w')
            end
  end.

(** [db.get_cursor(dictionary=...)]: a fresh cursor on the thread-local
    connection, which is opened on demand. *)
Definition get_cursor (dictionary : bool) : M nat := λ w,
  let h := length (cursors (db w)) in
  call (CGetCursor h dictionary) (λ w,
    (Ok h, set_db (λ d, {| Users := Users d; Items := Items d;
                           Notifications := Notifications d;
                           uncommitted := uncommitted d;
                           connected := true;
                           cursors := cursors d ++ [{| c_open := true; c_rows := [] |}] |}) w)) w.

(** Result sets of the two SELECT statements. *)
Definition item_rows (i : Z) (items : list ItemRow) : list Row :=
  (λ r, RowItem (reported_by r) (title r)) <$>
    filter (λ r, item_id r = i) items.
Definition user_rows (u : Z) (users : list UserRow) : list Row :=
  (λ r, RowUser (email r) (name r)) <$>
    filter (λ r, user_id r = u) users.

Definition not_connected : Exn := "Cursor is not connected".

(** The cursor behind a handle, if it exists and is open. *)
Definition open_cursor (h : nat) (d : Db) : option Cursor :=
  match cursors d !! h with
  | Some c => if c_open c then Some c else None
  | None => None
  end.

(** [cursor.execute(query, params)] *)
Definition execute (h : nat) (q : Query) : M unit :=
  call (CExecute h q) (λ w,
    match open_cursor h (db w) with
    | None => (Raise not_connected, w)
    | Some _ =>
        match q with
        | SelectItem i =>
            (Ok tt, set_db (set_cursors
               <[h := {| c_open := true; c_rows := item_rows i (Items (db w)) |}]>) w)
        | SelectUser u =>
            (Ok tt, set_db (set_cursors
               <[h := {| c_open := true; c_rows := user_rows u (Users (db w)) |}]>) w)
        | InsertNotification r =>
            (Ok tt, set_db (λ d,
               {| Users := Users d; Items := Items d;
                  Notifications := Notifications d;
                  uncommitted := uncommitted d ++ [r];
                  connected := connected d;
                  cursors := <[h := {| c_open := true; c_rows := [] |}]> (cursors d) |}) w)
        end
    end).

(** [cursor.fetchone()] *)
Definition fetchone (h : nat) : M (option Row) :=
  call (CFetchone h) (λ w,
    match open_cursor h (db w) with
    | None => (Raise not_connected, w)
    | Some c =>
        match c_rows c with
        | [] => (Ok None, w)
        | r :: rest =>
            (Ok (Some r), set_db (set_cursors
               <[h := {| c_open := true; c_rows := rest |}]>) w)
        end
    end).

(** [cursor.close()]: closing a closed cursor does nothing; a close that
    raises leaves the cursor as it was. *)
Definition cursor_close (h : nat) : M unit :=
  call (CCursorClose h) (λ w,
    (Ok tt, set_db (set_cursors
       <[h := {| c_open := false; c_rows := [] |}]>) w)).

(** [db.conn.commit()] *)
Definition commit : M unit :=
  call CCommit (λ w,
    (Ok tt, set_db (λ d, {| Users := Users d; Items := Items d;
                            Notifications := Notifications d ++ uncommitted d;
                            uncommitted := [];
                            connected := connected d;
                            cursors := cursors d |}) w)).

(** Modelled from the spec: [db.close()] of config/db_connector.py, which is
    not part of the sources, is the connection-level close for thread-local
    teardown: the connection of this thread is closed, and with it work
    that was not committed is gone.  Like the other calls on [db] it may
    raise, and then it leaves the connection as it was. *)
Definition db_close : M unit :=
  call CDbClose (λ w,
    (Ok tt, set_db (λ d, {| Users := Users d; Items := Items d;
                            Notifications := Notifications d;
                            uncommitted := [];
                            connected := false;
                            cursors := cursors d |}) w)).

(** ** Environment and transport *)

(** [os.getenv(key)] *)
Definition getenv (key : string) : M (option string) := λ w,
  (Ok (environ w !! key), w).

(** Truth value of what [os.getenv] returns: [None] and the empty string
    are false. *)
Definition truthy (v : option string) : bool :=
  match v with
  | Some s => negb (String.eqb s "")
  | None => false
  end.

(** [int(s)] on the value of EMAIL_PORT.  Which strings [int] reads and
    which it refuses with a [ValueError] is left to the oracle. *)
Definition int (s : string) : M Port :=
  call (CInt s) (λ w, (Ok (PortRead s), w)).

(** [int(os.getenv('EMAIL_PORT', 587))]: without the variable the default
    is a number already. *)
Definition email_port : M Port :=
  v <- getenv "EMAIL_PORT" ;;
  match v with
  | None => ret (PortNumber 587)
  | Some s => int s
  end.

(** [smtplib.SMTP(host, port)]: the object is created, then its constructor
    connects, which may raise. *)
Definition SMTP (host : option string) (port : Port) : M nat := λ w,
  let s := sessions (smtp w) in
  call (CSmtp s host port) (λ w, (Ok s, w))
    (set_smtp (λ m, {| sessions := S (sessions m); outbox := outbox m |}) w).

Definition starttls (server : nat) : M unit :=
  call (CStarttls server) (λ w, (Ok tt, w)).

Definition login (server : nat) (user password : option string) : M unit :=
  call (CLogin server user password) (λ w, (Ok tt, w)).

Definition sendmail (server : nat) (sender recipient : string) (msg : Message)
  : M unit :=
  call (CSendmail server sender recipient msg) (λ w,
    (Ok tt, set_smtp (λ m, {| sessions := sessions m;
                              outbox := outbox m ++ [(sender, recipient, msg)] |}) w)).

Definition quit (server : nat) : M unit :=
  call (CQuit server) (λ w, (Ok tt, w)).

(** [msg.as_string()]: the text of the message, unless the library refuses
    to render it (a header value that carries a line of its own, for
    one).  The text is kept as the message it renders. *)
Definition as_string (msg : Message) : M Message :=
  call (CAsString msg) (λ w, (Ok msg, w)).

(** [return b] of [send_email]: the value also enters the history. *)
Definition sent (recipient : string) (b : bool) : M bool := λ w,
  (Ok b, note (EvSent recipient b) w).

Definition join (sep : string) (l : list string) : string :=
  match l with
  | [] => ""
  | x :: l' => fold_left (λ acc y, acc +:+ sep +:+ y) l' x
  end.

(** ** The module *)

Definition get_user_email (user_id : Z) (cursor : option nat) : M (option Row) :=
  p <- match cursor with
       | None => c <- get_cursor true ;; ret (c, true)
       | Some c => ret (c, false)
       end ;;
  let cursor := fst p in
  let should_close := snd p in
  try_except
    (execute cursor (SelectUser user_id) ;;;
     user <- fetchone cursor ;;
     (if should_close then cursor_close cursor else ret tt) ;;;
     match user with
     | None =>
         print ("Warning: User with ID " +:+ pretty user_id +:+ " not found.") ;;;
         ret None
     | Some u => ret (Some u)
     end)
    (λ e,
       print ("Error fetching user " +:+ pretty user_id +:+ ": " +:+ e) ;;;
       (if should_close
        then try_except (cursor_close cursor) (λ _, ret tt)
        else ret tt) ;;;
       ret None).

(** Lines 62-70: the guarded transport block. *)
Definition deliver (sender_email : option string)
    (recipient_email : string) (msg : Message) : M bool :=
  host <- getenv "EMAIL_HOST" ;;
  port <- email_port ;;
  server <- SMTP host port ;;
  starttls server ;;;
  user <- getenv "EMAIL_USER" ;;
  pass <- getenv "EMAIL_PASS" ;;
  login server user pass ;;;
  text <- as_string msg ;;
  sendmail server (default "" sender_email) recipient_email text ;;;
  quit server ;;;
  append_email_debug ("SUCCESS: Sent to " +:+ recipient_email) ;;;
  sent recipient_email true.

(** Lines 56-60: the message, with the sender read from the environment. *)
Definition MIMEMultipart (sender_email : option string)
    (recipient_email subject body : string) : Message :=
  {| m_from := default "" sender_email; m_to := recipient_email;
     m_subject := subject; m_body := body |}.

Definition send_email (recipient_email subject body : string) : M bool :=
  sender_email <- getenv "EMAIL_SENDER" ;;
  email_host <- getenv "EMAIL_HOST" ;;
  email_user <- getenv "EMAIL_USER" ;;
  email_pass <- getenv "EMAIL_PASS" ;;
  if negb (forallb truthy [sender_email; email_host; email_user; email_pass])
  then
    let missing : list string :=
      ((if truthy sender_email then [] else ["EMAIL_SENDER"]) ++
       (if truthy email_host then [] else ["EMAIL_HOST"]) ++
       (if truthy email_user then [] else ["EMAIL_USER"]) ++
       (if truthy email_pass then [] else ["EMAIL_PASS"]))%list in
    print ("Email credentials not configured. Missing: " +:+ join ", " missing) ;;;
    print ("Would have sent to " +:+ recipient_email +:+ ": " +:+ subject) ;;;
    sent recipient_email true
  else
    let msg := MIMEMultipart sender_email recipient_email subject body in
    try_except
      (deliver sender_email recipient_email msg)
      (λ e,
         let error_msg :=
           "ERROR sending email to " +:+ recipient_email +:+ ": " +:+ e in
         print error_msg ;;;
         append_email_debug error_msg ;;;
         sent recipient_email false).

Definition insert_notification (user_id : Z) (message notification_type : string)
  : M unit :=
  cursor <- get_cursor false ;;
  execute cursor (InsertNotification
    {| n_user_id := user_id; n_message := message; n_type := notification_type;
       n_status := Notification_STATUSES "SENT" |}) ;;;
  commit ;;;
  cursor_close cursor.

(** Subscripts on a row dictionary; a missing key is a [KeyError]. *)
Definition KeyError (key : string) : Exn := "'" +:+ key +:+ "'".

Definition row_reported_by (r : Row) : M Z :=
  match r with RowItem rb _ => ret rb | _ => raise (KeyError "reported_by") end.
Definition row_title (r : Row) : M string :=
  match r with RowItem _ t => ret t | _ => raise (KeyError "title") end.
Definition row_name (r : Row) : M string :=
  match r with RowUser _ n => ret n | _ => raise (KeyError "name") end.
Definition row_email (r : Row) : M string :=
  match r with RowUser e _ => ret e | _ => raise (KeyError "email") end.

Definition nl : string := String "010"%char "".

Definition reporter_message : string :=
  "Item successfully matched and resolved. Check your email for details!".
Definition claimant_message : string :=
  "Claim approved. Check your email for reporter's contact info.".

Definition reporter_subject (item_title : string) : string :=
  "SUCCESS: Your Item '" +:+ item_title +:+ "' Has Been RESOLVED!".
Definition reporter_body (reporter_name item_title : string) (admin_id : Z)
    (claimant_name : string) : string :=
  "Hello " +:+ reporter_name +:+ "," +:+ nl +:+ nl +:+
  "Good news! Your item, '" +:+ item_title +:+
  "', has been verified by the Admin (ID: " +:+ pretty admin_id +:+
  ") and matched with the person who found it. Please contact the claimant, "
  +:+ claimant_name +:+
  ", to arrange collection. Your contact details have been shared with them.".
Definition claimant_subject (item_title : string) : string :=
  "SUCCESS: Your Claim on '" +:+ item_title +:+ "' Has Been APPROVED!".
Definition claimant_body (claimant_name item_title reporter_name
    reporter_email : string) : string :=
  "Hello " +:+ claimant_name +:+ "," +:+ nl +:+ nl +:+
  "Your claim on '" +:+ item_title +:+
  "' has been successfully approved! Please contact the original reporter, "
  +:+ reporter_name +:+
  ", to arrange the return of the item. Their email is " +:+ reporter_email
  +:+ ".".

(** Lines 137-147 and 155-165: the insert that follows a successful send.
    [workflow] spells this suite out twice, for the reporter and for the
    claimant; it is named here to state what the two blocks do. *)
Definition notify_insert (who : string) (user_id : Z) (message : string)
  : M unit :=
  try_except
    (log_debug ("Inserting notification for " +:+ who +:+ "...") ;;;
     cursor_notif <- get_cursor false ;;
     execute cursor_notif (InsertNotification
       {| n_user_id := user_id;
          n_message := message;
          n_type := Notification_TYPES "EMAIL";
          n_status := Notification_STATUSES "SENT" |}) ;;;
     commit ;;;
     cursor_close cursor_notif ;;;
     log_debug "Notification inserted.")
    (λ e,
       print ("Error inserting notification: " +:+ e) ;;;
       log_debug ("Error inserting notification: " +:+ e)).

(** Lines 100-165: the suite of the [try] statement. *)
Definition workflow (item_id claimant_id admin_id : Z) : M unit :=
  (log_debug "Getting cursor from thread-local db..." ;;;
   cursor <- get_cursor true ;;
   log_debug "Fetching item info..." ;;;
   execute cursor (SelectItem item_id) ;;;
   item_info <- fetchone cursor ;;
   match item_info with
   | None =>
       print ("Warning: Item with ID " +:+ pretty item_id +:+ " not found.") ;;;
       log_debug "Item not found." ;;;
       cursor_close cursor ;;;
       ret tt
   | Some item_info =>
       reporter_id <- row_reported_by item_info ;;
       item_title <- row_title item_info ;;
       log_debug ("Fetching reporter " +:+ pretty reporter_id +:+ "...") ;;;
       reporter <- get_user_email reporter_id (Some cursor) ;;
       log_debug ("Fetching claimant " +:+ pretty claimant_id +:+ "...") ;;;
       claimant <- get_user_email claimant_id (Some cursor) ;;
       log_debug "Closing cursor..." ;;;
       cursor_close cursor ;;;
       match reporter, claimant with
       | Some reporter, Some claimant =>
           reporter_name <- row_name reporter ;;
           claimant_name <- row_name claimant ;;
           let r_subject := reporter_subject item_title in
           let r_body :=
             reporter_body reporter_name item_title admin_id claimant_name in
           log_debug "Sending email to reporter..." ;;;
           reporter_email <- row_email reporter ;;
           ok <- send_email reporter_email r_subject r_body ;;
           (if ok : bool then
              try_except
                (log_debug "Inserting notification for reporter..." ;;;
                 cursor_notif <- get_cursor false ;;
                 execute cursor_notif (InsertNotification
                   {| n_user_id := reporter_id;
                      n_message := reporter_message;
                      n_type := Notification_TYPES "EMAIL";
                      n_status := Notification_STATUSES "SENT" |}) ;;;
                 commit ;;;
                 cursor_close cursor_notif ;;;
                 log_debug "Notification inserted.")
                (λ e,
                   print ("Error inserting notification: " +:+ e) ;;;
                   log_debug ("Error inserting notification: " +:+ e))
            else ret tt) ;;;
           let c_subject := claimant_subject item_title in
           claimant_name' <- row_name claimant ;;
           reporter_name' <- row_name reporter ;;
           reporter_email' <- row_email reporter ;;
           let c_body :=
             claimant_body claimant_name' item_title reporter_name'
               reporter_email' in
           log_debug "Sending email to claimant..." ;;;
           claimant_email <- row_email claimant ;;
           ok <- send_email claimant_email c_subject c_body ;;
           (if ok : bool then
              try_except
                (log_debug "Inserting notification for claimant..." ;;;
                 cursor_notif <- get_cursor false ;;
                 execute cursor_notif (InsertNotification
                   {| n_user_id := claimant_id;
                      n_message := claimant_message;
                      n_type := Notification_TYPES "EMAIL";
                      n_status := Notification_STATUSES "SENT" |}) ;;;
                 commit ;;;
                 cursor_close cursor_notif ;;;
                 log_debug "Notification inserted.")
                (λ e,
                   print ("Error inserting notification: " +:+ e) ;;;
                   log_debug ("Error inserting notification: " +:+ e))
            else ret tt)
       | _, _ =>
           print "Warning: Missing user data for reporter or claimant. Skipping email notifications." ;;;
           log_debug "Missing user data." ;;;
           ret tt
       end
   end).

Definition send_claim_resolved_emails (item_id claimant_id admin_id : Z) : M unit :=
  log_debug ("Starting send_claim_resolved_emails for Item " +:+ pretty item_id) ;;;
  try_finally
    (try_except
       (workflow item_id claimant_id admin_id)
       (λ e,
          print ("Error in send_claim_resolved_emails (background): " +:+ e) ;;;
          log_debug ("CRASH: " +:+ e)))
    db_close.

(** ** Observations on a run *)

(** The part of a history that matters for the notification log: the value
    handed back by a send, the acquisition of a cursor for an insert
    ([db.get_cursor()], the only non-dictionary cursor of the module) and
    the INSERT statement. *)
Inductive Step :=
| Sent (recipient : string) (ok : bool)
| Acquire (ok : bool)
| Insert (row : NotificationRow).

Definition step_of (ev : Event) : option Step :=
  match ev with
  | EvSent r ok => Some (Sent r ok)
  | EvCall (CGetCursor _ false) None => Some (Acquire true)
  | EvCall (CGetCursor _ false) (Some _) => Some (Acquire false)
  | EvCall (CExecute _ (InsertNotification row)) _ => Some (Insert row)
  | _ => None
  end.
Definition steps (evs : list Event) : list Step := omap step_of evs.

(** Rows whose INSERT went through. *)
Definition staged_of (ev : Event) : option NotificationRow :=
  match ev with
  | EvCall (CExecute _ (InsertNotification row)) None => Some row
  | _ => None
  end.
Definition staged (evs : list Event) : list NotificationRow := omap staged_of evs.

(** Outcomes of the [close()] calls on the cursor [h]. *)
Definition close_calls (h : nat) (evs : list Event) : list (option Exn) :=
  omap (λ ev, match ev with
              | EvCall (CCursorClose h') r =>
                  if Nat.eqb h' h then Some r else None
              | _ => None
              end) evs.

(** Exceptions raised by collaborator calls, in order. *)
Definition raises (evs : list Event) : list Exn :=
  omap (λ ev, match ev with EvCall _ (Some e) => Some e | _ => None end) evs.

(** All rows the connection knows of, committed or not. *)
Definition ledger (w : World) : list NotificationRow :=
  Notifications (db w) ++ uncommitted (db w).

Definition required_keys : list string :=
  ["EMAIL_SENDER"; "EMAIL_HOST"; "EMAIL_USER"; "EMAIL_PASS"].

Definition configured (w : World) : bool :=
  forallb (λ k, truthy (environ w !! k)) required_keys.

Definition missing_keys (w : World) : list string :=
  filter (λ k, truthy (environ w !! k) = false) required_keys.

(** [w'] is reached from [w] by a piece of the module that went through the
    steps [ss] and staged [rows]. *)
Record trans (w w' : World) (ss : list Step) (rows : list NotificationRow)
  : Prop := {
  t_environ : environ w' = environ w;
  t_faults : faults w' = faults w;
  t_users : Users (db w') = Users (db w);
  t_items : Items (db w') = Items (db w);
  t_history : ∃ new, history w' = history w ++ new ∧
                     steps new = ss ∧ staged new = rows;
  t_ledger : ledger w' = ledger w ++ rows;
  t_committed : Notifications (db w) `prefix_of` Notifications (db w')
}.

(** The row of an INSERT is justified by a send to [recipient]: it is for a
    user with that address and has type EMAIL and status SENT. *)
Definition justified (us : list UserRow) (recipient : string)
    (row : NotificationRow) : Prop :=
  (∃ u, u ∈ us ∧ user_id u = n_user_id row ∧ email u = recipient) ∧
  n_type row = Notification_TYPES "EMAIL" ∧
  n_status row = Notification_STATUSES "SENT".

(** Sends and inserts of a run go in pairs: a send that reported failure is
    followed by no insert; a send that reported success is followed by
    exactly one attempt to insert, which is one INSERT statement with a
    justified row unless the cursor for it could not be acquired; and there
    is no other INSERT. *)
Inductive paired (us : list UserRow) : list Step → Prop :=
| paired_nil : paired us []
| paired_failed r ss :
    paired us ss → paired us (Sent r false :: ss)
| paired_no_cursor r ss :
    paired us ss → paired us (Sent r true :: Acquire false :: ss)
| paired_insert r row ss :
    justified us r row → paired us ss →
    paired us (Sent r true :: Acquire true :: Insert row :: ss).

(** What [get_user_email] hands back, and what it prints. *)
Definition lookup_outcome (uid : Z) (w w' : World) (new : list Event)
    (r : option Row) : Prop :=
  (∃ u, u ∈ Users (db w) ∧ user_id u = uid ∧
        r = Some (RowUser (email u) (name u)) ∧
        out w' = out w ∧ raises new = []) ∨
  (r = None ∧ (∀ u, u ∈ Users (db w) → user_id u ≠ uid) ∧ raises new = [] ∧
   stdout (out w') = stdout (out w) ++
     ["Warning: User with ID " +:+ pretty uid +:+ " not found."]) ∨
  (r = None ∧ ∃ e, head (raises new) = Some e ∧
   stdout (out w') = stdout (out w) ++
     ["Error fetching user " +:+ pretty uid +:+ ": " +:+ e]).

(** The row that the workflow inserts for a user. *)
Definition email_row (uid : Z) (message : string) : NotificationRow :=
  {| n_user_id := uid; n_message := message;
     n_type := Notification_TYPES "EMAIL";
     n_status := Notification_STATUSES "SENT" |}.

(** ** Example worlds *)

Definition env_full : gmap string string :=
  list_to_map [("EMAIL_SENDER", "noreply@back2u.test");
               ("EMAIL_HOST", "smtp.back2u.test");
               ("EMAIL_USER", "mailer"); ("EMAIL_PASS", "secret")].

Definition db_demo : Db :=
  {| Users := [ {| user_id := 1; email := "reporter@back2u.test"; name := "Asha" |};
                {| user_id := 2; email := "claimant@back2u.test"; name := "Ravi" |} ];
     Items := [ {| item_id := 42; reported_by := 1; title := "Blue Backpack" |} ];
     Notifications := []; uncommitted := []; connected := false; cursors := [] |}.

Definition world_demo (env : gmap string string)
    (f : list Event → Call → option Exn) : World :=
  {| environ := env; db := db_demo;
     smtp := {| sessions := 0; outbox := [] |};
     out := {| stdout := []; email_debug_log := []; crash_debug_log := [] |};
     history := []; faults := f |}.

(** No collaborator ever raises. *)
Definition healthy : list Event → Call → option Exn := λ _ _, None.

(** The transport refuses one recipient. *)
Definition refuses (recipient : string) : list Event → Call → option Exn :=
  λ _ c,
    match c with
    | CSendmail _ _ r _ =>
        if String.eqb r recipient then Some "Recipient address rejected" else None
    | _ => None
    end.

(** The database is unreachable: no cursor can be had. *)
Definition db_down : list Event → Call → option Exn :=
  λ _ c,
    match c with
    | CGetCursor _ _ => Some "Can't connect to MySQL server"
    | _ => None
    end.

(** Queries on Items fail. *)
Definition items_broken : list Event → Call → option Exn :=
  λ _ c,
    match c with
    | CExecute _ (SelectItem _) => Some "Table 'Items' doesn't exist"
    | _ => None
    end.

(** INSERT statements fail. *)
Definition insert_broken : list Event → Call → option Exn :=
  λ _ c,
    match c with
    | CExecute _ (InsertNotification _) => Some "Lock wait timeout exceeded"
    | _ => None
    end.

(** The five calls of one SMTP session. *)
Inductive SmtpStage := AtConnect | AtStarttls | AtLogin | AtSendmail | AtQuit.

(** The oracle under which the session [s] breaks at the stage [st] and
    every other call on a collaborator goes through. *)
Definition fails_at (s : nat) (st : SmtpStage) (c : Call) : bool :=
  match c with
  | CSmtp s' _ _ => match st with AtConnect => Nat.eqb s' s | _ => false end
  | CStarttls s' => match st with AtStarttls => Nat.eqb s' s | _ => false end
  | CLogin s' _ _ => match st with AtLogin => Nat.eqb s' s | _ => false end
  | CSendmail s' _ _ _ =>
      match st with AtSendmail => Nat.eqb s' s | _ => false end
  | CQuit s' => match st with AtQuit => Nat.eqb s' s | _ => false end
  | _ => false
  end.

Definition breaks (s : nat) (st : SmtpStage) (e : Exn)
  : list Event → Call → option Exn :=
  λ _ c, if fails_at s st c then Some e else None.

(** [int] refuses the port. *)
Definition port_unreadable : list Event → Call → option Exn :=
  λ _ c,
    match c with
    | CInt _ => Some "invalid literal for int() with base 10: 'smtp'"
    | _ => None
    end.

(** Closing the connection fails. *)
Definition close_broken : list Event → Call → option Exn :=
  λ _ c,
    match c with
    | CDbClose => Some "MySQL Connection not available."
    | _ => None
    end.

(** Queries on Items fail, and so does closing the connection. *)
Definition items_and_close_broken : list Event → Call → option Exn :=
  λ hist c,
    match c with
    | CDbClose => Some "MySQL Connection not available."
    | _ => items_broken hist c
    end.

(** *** Further observations *)

(** Calls made by the mail sender: the five calls on the transport and the
    two library calls of its guarded block. *)
Definition is_mail (c : Call) : bool :=
  match c with
  | CSmtp _ _ _ | CStarttls _ | CLogin _ _ _ | CSendmail _ _ _ _ | CQuit _
  | CInt _ | CAsString _ => true
  | _ => false
  end.

Definition is_mail_event (ev : Event) : bool :=
  match ev with
  | EvCall c _ => is_mail c
  | EvSent _ _ => false
  end.

(** INSERT statements. *)
Definition is_insert (c : Call) : bool :=
  match c with
  | CExecute _ (InsertNotification _) => true
  | _ => false
  end.

(** A cursor after [close()]. *)
Definition closed : Cursor := {| c_open := false; c_rows := [] |}.

(** What the transport is given for one mail. *)
Definition letter (env : gmap string string)
    (recipient subject body : string) : string * string * Message :=
  (default "" (env !! "EMAIL_SENDER"), recipient,
   MIMEMultipart (env !! "EMAIL_SENDER") recipient subject body).

Definition port_arg (env : gmap string string) : Port :=
  match env !! "EMAIL_PORT" with
  | Some p => PortRead p
  | None => PortNumber 587
  end.

(** The events of a send in which every call goes through. *)
Definition session (s : nat) (env : gmap string string)
    (recipient subject body : string) : list Event :=
  match env !! "EMAIL_PORT" with
  | Some p => [EvCall (CInt p) None]
  | None => []
  end ++
  [EvCall (CSmtp s (env !! "EMAIL_HOST") (port_arg env)) None;
   EvCall (CStarttls s) None;
   EvCall (CLogin s (env !! "EMAIL_USER") (env !! "EMAIL_PASS")) None;
   EvCall (CAsString
             (MIMEMultipart (env !! "EMAIL_SENDER") recipient subject body))
     None;
   EvCall (CSendmail s (default "" (env !! "EMAIL_SENDER")) recipient
             (MIMEMultipart (env !! "EMAIL_SENDER") recipient subject body))
     None;
   EvCall (CQuit s) None;
   EvSent recipient true].

(** The events of the read phase when item and users are looked up and
    every call goes through. *)
Definition lookups (h : nat) (i rid cid : Z) : list Event :=
  [EvCall (CGetCursor h true) None;
   EvCall (CExecute h (SelectItem i)) None; EvCall (CFetchone h) None;
   EvCall (CExecute h (SelectUser rid)) None; EvCall (CFetchone h) None;
   EvCall (CExecute h (SelectUser cid)) None; EvCall (CFetchone h) None;
   EvCall (CCursorClose h) None].

(** The events of an insert in which every call goes through. *)
Definition insertion (h : nat) (row : NotificationRow) : list Event :=
  [EvCall (CGetCursor h false) None;
   EvCall (CExecute h (InsertNotification row)) None;
   EvCall CCommit None;
   EvCall (CCursorClose h) None].

(** What one recipient gets in a run: a send that failed, or a send that
    went through followed by the attempt to insert the row. *)
Definition group (recipient : string) (row : NotificationRow)
    (ss : list Step) : Prop :=
  ss = [Sent recipient false] ∨
  ss = [Sent recipient true; Acquire false] ∨
  ss = [Sent recipient true; Acquire true; Insert row].

(** The steps of a whole run for the item [i] and the claimant [c]:
    nothing, or the group of the reporter of the item followed by the group
    of the claimant. *)
Definition run_shape (its : list ItemRow) (us : list UserRow)
    (i c : Z) (ss : list Step) : Prop :=
  ss = [] ∨
  ∃ it u1 u2 g1 g2,
    it ∈ its ∧ item_id it = i ∧
    u1 ∈ us ∧ user_id u1 = reported_by it ∧
    u2 ∈ us ∧ user_id u2 = c ∧
    group (email u1) (email_row (reported_by it) reporter_message) g1 ∧
    group (email u2) (email_row c claimant_message) g2 ∧
    ss = g1 ++ g2.

(** The warning of [get_user_email] for an empty result set. *)
Definition not_found_warning (uid : Z) (rows : list Row) : list string :=
  match rows with
  | [] => ["Warning: User with ID " +:+ pretty uid +:+ " not found."]
  | _ :: _ => []
  end.

(** Only [close()] calls fail. *)
Definition cursor_close_broken : list Event → Call → option Exn :=
  λ _ c,
    match c with
    | CCursorClose _ => Some "MySQL Connection not available."
    | _ => None
    end.

(** ** Reasoning about runs *)

Lemma trans_refl w : trans w w [] [].
Proof.
  split; try done.
  - exists []. by rewrite app_nil_r.
  - by rewrite app_nil_r.
Qed.

Lemma trans_trans w1 w2 w3 s1 s2 r1 r2 :
  trans w1 w2 s1 r1 → trans w2 w3 s2 r2 → trans w1 w3 (s1 ++ s2) (r1 ++ r2).
Proof.
  intros [E1 F1 U1 I1 (n1 & H1 & S1 & R1) L1 C1]
         [E2 F2 U2 I2 (n2 & H2 & S2 & R2) L2 C2].
  split; try congruence.
  - exists (n1 ++ n2). rewrite H2, H1, <- app_assoc. split; [done|].
    unfold steps, staged. rewrite !omap_app. by subst.
  - by rewrite L2, L1, <- app_assoc.
  - by etrans.
Qed.

(** The functions of the module are unfolded on demand only. *)
Arguments open_cursor : simpl never.
Arguments item_rows : simpl never.
Arguments user_rows : simpl never.
Arguments get_cursor : simpl never.
Arguments execute : simpl never.
Arguments fetchone : simpl never.
Arguments cursor_close : simpl never.
Arguments commit : simpl never.
Arguments deliver : simpl never.
Arguments email_port : simpl never.
Arguments send_email : simpl never.
Arguments workflow : simpl never.
Arguments notify_insert : simpl never.
Arguments MIMEMultipart : simpl never.
Arguments get_user_email : simpl never.
Arguments insert_notification : simpl never.

(** Symbolic execution of a leaf function: unfold the monad and split on
    every answer of the oracle. *)
Ltac unfold_monad :=
  unfold db_close, int, as_string in *;
  unfold call, sent, getenv, print, append_email_debug, log_debug,
    bind, try_except, try_finally, ret, raise in *.

Ltac reduce :=
  cbn -[pretty String.append forallb truthy lookup insert filter
        configured missing_keys join Nat.eqb] in *.

Ltac split_faults :=
  repeat (reduce;
          match goal with
          | |- context [match faults ?w ?h ?c with _ => _ end] =>
              destruct (faults w h c) eqn:?
          end);
  reduce.

Ltac leaf_trans :=
  split; unfold ledger; reduce;
  lazymatch goal with
  | |- ∃ _, _ =>
      eexists; split; [rewrite <- ?app_assoc; reflexivity | by split]
  | |- _ `prefix_of` _ => first [done | by apply prefix_app_r]
  | |- _ => rewrite <- ?app_assoc, ?app_nil_r; by reduce
  end.

Ltac conj :=
  repeat match goal with |- _ ∧ _ => split end;
  try match goal with
      | |- trans _ _ _ _ => first [exact (trans_refl _) | leaf_trans]
      | |- _ => by reduce
      end.

Ltac finish :=
  split_and?; reduce;
  try match goal with
      | |- trans _ _ _ _ => first [exact (trans_refl _) | leaf_trans]
      | |- _ = _ ++ _ => rewrite <- ?app_assoc; reflexivity
      | |- _ => done
      end.

(** Facts on result sets and cursor tables. *)
Lemma user_rows_nil uid us :
  user_rows uid us = [] → ∀ u, u ∈ us → user_id u ≠ uid.
Proof.
  unfold user_rows. intros H u Hu Hid.
  apply fmap_nil_inv in H.
  assert (u ∈ filter (λ r, user_id r = uid) us) as Hin
    by (apply list_elem_of_filter; done).
  rewrite H in Hin. inversion Hin.
Qed.

Lemma user_rows_cons uid us r rest :
  user_rows uid us = r :: rest →
  ∃ u, u ∈ us ∧ user_id u = uid ∧ r = RowUser (email u) (name u).
Proof.
  unfold user_rows. intros H.
  apply fmap_cons_inv in H as (u & l' & -> & _ & Hf).
  assert (u ∈ filter (λ r, user_id r = uid) us) as Hin
    by (rewrite Hf; left).
  apply list_elem_of_filter in Hin as [? ?]. eauto.
Qed.

Lemma open_cursor_lookup h d c :
  open_cursor h d = Some c ↔ cursors d !! h = Some c ∧ c_open c = true.
Proof.
  unfold open_cursor.
  destruct (cursors d !! h) as [c'|]; [destruct (c_open c') eqn:E|];
    split; intros H; try discriminate.
  - by inversion H; subst.
  - by destruct H.
  - destruct H as [H1 H2]. inversion H1; subst. congruence.
  - by destruct H.
Qed.

Lemma open_state_insert (cs : list Cursor) c x y :
  cs !! c = Some x → c_open y = c_open x →
  ∀ h, c_open <$> <[c := y]> cs !! h = c_open <$> cs !! h.
Proof.
  intros Hx Hy h. destruct (decide (h = c)) as [->|Hne].
  - rewrite list_lookup_insert_eq by (by eapply lookup_lt_Some).
    rewrite Hx. cbn. by rewrite Hy.
  - by rewrite list_lookup_insert_ne.
Qed.

Lemma lookup_fresh (cs : list Cursor) x : (cs ++ [x]) !! length cs = Some x.
Proof. by apply list_lookup_middle. Qed.

Lemma insert_fresh (cs : list Cursor) x y :
  <[length cs := y]> (cs ++ [x]) = cs ++ [y].
Proof.
  rewrite insert_app_r_alt by done. by rewrite Nat.sub_diag.
Qed.

Lemma configured_forallb w :
  forallb truthy [environ w !! "EMAIL_SENDER"; environ w !! "EMAIL_HOST";
                  environ w !! "EMAIL_USER"; environ w !! "EMAIL_PASS"]
  = configured w.
Proof. reflexivity. Qed.

Lemma missing_keys_eq w :
  ((if truthy (environ w !! "EMAIL_SENDER") then [] else ["EMAIL_SENDER"]) ++
   (if truthy (environ w !! "EMAIL_HOST") then [] else ["EMAIL_HOST"]) ++
   (if truthy (environ w !! "EMAIL_USER") then [] else ["EMAIL_USER"]) ++
   (if truthy (environ w !! "EMAIL_PASS") then [] else ["EMAIL_PASS"]))
  = missing_keys w.
Proof.
  unfold missing_keys, required_keys. cbn [filter list_filter].
  destruct (truthy (environ w !! "EMAIL_SENDER")),
    (truthy (environ w !! "EMAIL_HOST")),
    (truthy (environ w !! "EMAIL_USER")),
    (truthy (environ w !! "EMAIL_PASS")); reflexivity.
Qed.

Lemma configured_missing w : configured w = true ↔ missing_keys w = [].
Proof.
  rewrite <- missing_keys_eq, <- configured_forallb. cbn.
  destruct (truthy (environ w !! "EMAIL_SENDER")),
    (truthy (environ w !! "EMAIL_HOST")),
    (truthy (environ w !! "EMAIL_USER")),
    (truthy (environ w !! "EMAIL_PASS")); cbn; split; congruence.
Qed.

(** The guarded transport block touches the transport only; when it
    raises, nothing was written to standard output or to the files. *)
Lemma deliver_cases sender r msg w :
  match deliver sender r msg w with
  | (Ok ok, w') =>
      ok = true ∧ trans w w' [Sent r true] [] ∧ db w' = db w ∧
      crash_debug_log (out w') = crash_debug_log (out w)
  | (Raise e, w') =>
      trans w w' [] [] ∧ db w' = db w ∧ out w' = out w
  end.
Proof.
  unfold deliver, email_port, SMTP, starttls, login, sendmail, quit.
  unfold_monad. reduce.
  destruct (environ w !! "EMAIL_PORT") as [p|]; split_faults; conj.
Qed.

Lemma send_email_trans r s b w :
  ∃ ok w', send_email r s b w = (Ok ok, w') ∧
    trans w w' [Sent r ok] [] ∧ db w' = db w ∧
    crash_debug_log (out w') = crash_debug_log (out w).
Proof.
  unfold send_email. unfold_monad. reduce. rewrite configured_forallb.
  destruct (configured w); reduce.
  - pose proof (deliver_cases (environ w !! "EMAIL_SENDER") r
      (MIMEMultipart (environ w !! "EMAIL_SENDER") r s b) w) as H.
    destruct (deliver _ _ _ w) as [[ok|e] w1].
    + destruct H as (-> & ? & ? & ?). eexists _, _.
      split; [done|]. by split_and!.
    + destruct H as (T & D & O). eexists _, _. split; [done|].
      split; [|reduce; by rewrite O].
      replace [Sent r false] with ([] ++ [Sent r false]) by done.
      replace (@nil NotificationRow) with (@nil NotificationRow ++ []) by done.
      eapply trans_trans; [exact T|]. leaf_trans.
  - eexists _, _. split; [done|]. conj.
Qed.

(** ** get_user_email: all outcomes *)

Lemma get_user_email_borrowed uid c w :
  ∃ r w' new, get_user_email uid (Some c) w = (Ok r, w') ∧
    history w' = history w ++ new ∧
    close_calls c new = [] ∧
    trans w w' [] [] ∧
    Notifications (db w') = Notifications (db w) ∧
    uncommitted (db w') = uncommitted (db w) ∧
    (∀ h, c_open <$> cursors (db w') !! h = c_open <$> cursors (db w) !! h) ∧
    email_debug_log (out w') = email_debug_log (out w) ∧
    crash_debug_log (out w') = crash_debug_log (out w) ∧
    lookup_outcome uid w w' new r.
Proof.
  unfold lookup_outcome, get_user_email, execute, fetchone. unfold_monad. reduce.
  destruct (faults w (history w) (CExecute c (SelectUser uid))) eqn:F1; reduce.
  { eexists _, _, _. split; [done|]. finish. right; right. eauto. }
  destruct (open_cursor c (db w)) as [c0|] eqn:Hoc; reduce.
  2: { eexists _, _, _. split; [done|]. finish. right; right. eauto. }
  apply open_cursor_lookup in Hoc as [Hc0 Hopen].
  assert (c < length (cursors (db w)))%nat as Hlt by (by eapply lookup_lt_Some).
  match goal with
  | |- context [match faults ?w ?h ?c with _ => _ end] =>
      destruct (faults w h c) eqn:F2
  end; reduce.
  { eexists _, _, _. split; [done|]. finish.
    - by apply (open_state_insert _ _ c0).
    - right; right. eauto. }
  match goal with
  | |- context [open_cursor ?h ?d] =>
      rewrite (proj2 (open_cursor_lookup h d
                 {| c_open := true; c_rows := user_rows uid (Users (db w)) |}))
        by (split; [by apply list_lookup_insert_eq|done])
  end.
  reduce.
  destruct (user_rows uid (Users (db w))) as [|row rest] eqn:Hrows; reduce.
  - eexists _, _, _. split; [done|]. finish.
    + by apply (open_state_insert _ _ c0).
    + right; left. split_and!; try done. by apply user_rows_nil.
  - eexists _, _, _. split; [done|]. finish.
    + rewrite list_insert_insert_eq. by apply (open_state_insert _ _ c0).
    + left. apply user_rows_cons in Hrows as (u & ? & ? & ->). eauto 10.
Qed.

Ltac norm_own :=
  repeat (progress (unfold open_cursor; reduce;
                    rewrite ?insert_fresh, ?lookup_fresh, ?Nat.eqb_refl)).

Lemma get_user_email_owned uid w :
  let h := length (cursors (db w)) in
  match faults w (history w) (CGetCursor h true) with
  | Some e =>
      get_user_email uid None w
      = (Raise e, note (EvCall (CGetCursor h true) (Some e)) w)
  | None =>
      ∃ r w' new, get_user_email uid None w = (Ok r, w') ∧
        history w' = history w ++ new ∧
        close_calls h new ≠ [] ∧
        (∃ c, cursors (db w') = cursors (db w) ++ [c] ∧
              (c_open c = false ∨ None ∉ close_calls h new)) ∧
        lookup_outcome uid w w' new r
  end.
Proof.
  unfold lookup_outcome, get_user_email, get_cursor, execute, fetchone, cursor_close.
  unfold_monad.
  repeat (norm_own;
          match goal with
          | |- context [match faults ?w ?h ?c with _ => _ end] =>
              destruct (faults w h c) eqn:?
          | |- context [match user_rows ?u ?us with _ => _ end] =>
              destruct (user_rows u us) as [|row rest] eqn:Hrows
          end).
  all: norm_own.
  all: try done.
  all: eexists _, _, _; (split; [done|]); norm_own; split_and!.
  all: try (rewrite <- ?app_assoc; reflexivity).
  all: norm_own.
  all: try done.
  all: try (eexists; split; [reflexivity|];
            first [ by left
                  | right; intros Hin;
                    repeat (apply elem_of_cons in Hin as [Hin|Hin];
                            [discriminate|]);
                    by apply elem_of_nil in Hin ]).
  all: try (right; right; split; [done|]; eexists; split; done).
  all: try (right; left; split_and!; try done; by apply user_rows_nil).
  all: try (left; apply user_rows_cons in Hrows as (u & ? & ? & ->); by eauto 10).
Qed.

(** ** The insert after a send, and the workflow step by step *)

Ltac split_calls :=
  repeat (norm_own;
          match goal with
          | |- context [match faults ?w ?h ?c with _ => _ end] =>
              destruct (faults w h c) eqn:?
          end);
  norm_own.

Lemma notify_insert_cases who uid message w :
  ∃ w' new ss rows, notify_insert who uid message w = (Ok tt, w') ∧
    history w' = history w ++ new ∧
    trans w w' ss rows ∧
    (ss = [Acquire false] ∧ rows = [] ∨
     ss = [Acquire true; Insert (email_row uid message)] ∧
     (rows = [] ∨ rows = [email_row uid message])) ∧
    smtp w' = smtp w ∧
    email_debug_log (out w') = email_debug_log (out w) ∧
    (raises new = [] →
     Notifications (db w') =
       Notifications (db w) ++ uncommitted (db w) ++ [email_row uid message] ∧
     uncommitted (db w') = [] ∧
     stdout (out w') = stdout (out w) ∧
     crash_debug_log (out w') = crash_debug_log (out w) ++
       ["Inserting notification for " +:+ who +:+ "...";
        "Notification inserted."]) ∧
    (∀ e, head (raises new) = Some e →
     stdout (out w') = stdout (out w) ++
       ["Error inserting notification: " +:+ e] ∧
     crash_debug_log (out w') = crash_debug_log (out w) ++
       ["Inserting notification for " +:+ who +:+ "...";
        "Error inserting notification: " +:+ e]).
Proof.
  unfold notify_insert, get_cursor, execute, commit, cursor_close, email_row.
  unfold_monad. split_calls.
  all: eexists _, _, _, _; (split; [done|]); norm_own; split_and!.
  all: try (rewrite <- ?app_assoc; reflexivity).
  all: norm_own.
  all: try match goal with |- trans _ _ _ _ => leaf_trans end.
  all: norm_own.
  all: try (first [ left; split; reflexivity
                  | right; split;
                    [reflexivity | first [left; reflexivity | right; reflexivity]] ]).
  all: try done.
  all: try (intros ? [= <-]; split; [done|]; rewrite <- ?app_assoc; done).
  all: try (intros _; split_and!; try done; rewrite <- ?app_assoc; done).
Qed.

Lemma trans_set_out f w w' ss rows :
  trans w w' ss rows → trans w (set_out f w') ss rows.
Proof. intros [? ? ? ? ? ? ?]. by split. Qed.

Lemma get_cursor_dict_trans w : trans w (snd (get_cursor true w)) [] [].
Proof.
  unfold get_cursor. unfold_monad. split_calls; leaf_trans.
Qed.

Lemma execute_select_item_trans h i w :
  trans w (snd (execute h (SelectItem i) w)) [] [].
Proof.
  unfold execute. unfold_monad. reduce.
  destruct (faults w (history w) _); reduce; [leaf_trans|].
  destruct (open_cursor h (db w)); reduce; leaf_trans.
Qed.

Lemma fetchone_trans h w : trans w (snd (fetchone h w)) [] [].
Proof.
  unfold fetchone. unfold_monad. reduce.
  destruct (faults w (history w) _); reduce; [leaf_trans|].
  destruct (open_cursor h (db w)) as [c|]; reduce; [|leaf_trans].
  destruct (c_rows c); reduce; leaf_trans.
Qed.

Lemma cursor_close_trans h w : trans w (snd (cursor_close h w)) [] [].
Proof.
  unfold cursor_close. unfold_monad. reduce.
  destruct (faults w (history w) _); reduce; leaf_trans.
Qed.

Ltac absorb T :=
  match goal with
  | Acc : trans ?w0 _ ?ss ?rows |- _ =>
      match type of T with
      | trans _ ?W' ?s2 ?r2 =>
          let A := fresh "A" in
          assert (trans w0 W' (ss ++ s2) (rows ++ r2)) as A
            by (eapply trans_trans; [|exact T];
                repeat apply trans_set_out; exact Acc);
          clear Acc T; cbn [app] in A; rename A into Acc
      end
  end.

Lemma get_cursor_plain_trans w :
  trans w (snd (get_cursor false w))
    [Acquire (match fst (get_cursor false w) with
              | Ok _ => true
              | Raise _ => false
              end)] [].
Proof.
  unfold get_cursor. unfold_monad. split_calls; leaf_trans.
Qed.

Lemma execute_insert_trans h row w :
  trans w (snd (execute h (InsertNotification row) w)) [Insert row]
    (match fst (execute h (InsertNotification row) w) with
     | Ok _ => [row]
     | Raise _ => []
     end).
Proof.
  unfold execute. unfold_monad. reduce.
  destruct (faults w (history w) _); reduce; [leaf_trans|].
  destruct (open_cursor h (db w)); reduce; leaf_trans.
Qed.

Lemma commit_trans w : trans w (snd (commit w)) [] [].
Proof.
  unfold commit. unfold_monad. reduce.
  destruct (faults w (history w) _); reduce; leaf_trans.
Qed.

Ltac step :=
  match goal with
  | |- context [match ?m ?W with _ => _ end] =>
      lazymatch type of W with World => idtac end;
      let T := fresh "T" in
      lazymatch m with
      | get_cursor true => pose proof (get_cursor_dict_trans W) as T
      | get_cursor false => pose proof (get_cursor_plain_trans W) as T
      | execute ?h (SelectItem ?i) =>
          pose proof (execute_select_item_trans h i W) as T
      | execute ?h (InsertNotification ?row) =>
          pose proof (execute_insert_trans h row W) as T
      | fetchone ?h => pose proof (fetchone_trans h W) as T
      | cursor_close ?h => pose proof (cursor_close_trans h W) as T
      | commit => pose proof (commit_trans W) as T
      end;
      let x := fresh "x" in
      let e := fresh "e" in
      let w' := fresh "w" in
      destruct (m W) as [[x|e] w']; cbn [fst snd] in T; absorb T; reduce
  end.

Ltac step_lookup :=
  match goal with
  | Acc : trans _ _ _ _ |- context [get_user_email ?u (Some ?c) ?W] =>
      let HU := fresh "HU" in
      let r := fresh "r" in
      let w' := fresh "w" in
      let new := fresh "new" in
      let E := fresh "E" in
      let T := fresh "T" in
      let Hout := fresh "Hout" in
      pose proof (t_users _ _ _ _ Acc) as HU;
      destruct (get_user_email_borrowed u c W)
        as (r & w' & new & E & _ & _ & T & _ & _ & _ & _ & _ & Hout);
      rewrite E; absorb T; unfold lookup_outcome in Hout; reduce;
      rewrite HU in Hout; clear HU E;
      destruct Hout as [(? & ? & ? & -> & _ & _)
                       |[(-> & _ & _ & _)|(-> & _ & _ & _)]];
      reduce
  end.

Ltac step_send :=
  match goal with
  | |- context [send_email ?r ?s ?b ?W] =>
      let ok := fresh "ok" in
      let w' := fresh "w" in
      let E := fresh "E" in
      let T := fresh "T" in
      destruct (send_email_trans r s b W) as (ok & w' & E & T & _ & _);
      rewrite E; absorb T; clear E; destruct ok; reduce
  end.

Ltac solve_paired :=
  repeat first
    [ apply paired_nil
    | apply paired_failed
    | apply paired_insert;
      [split; [|by split];
       match goal with
       | H : ?u ∈ _ |- _ => exists u; split_and!; [exact H|done|done]
       end|]
    | apply paired_no_cursor ].

Ltac conclude :=
  eexists _, _, _, _; split; [reflexivity|];
  split; [repeat apply trans_set_out; eassumption | solve_paired].

Lemma workflow_trans i c a w :
  ∃ r w' ss rows, workflow i c a w = (r, w') ∧
    trans w w' ss rows ∧ paired (Users (db w)) ss.
Proof.
  pose proof (trans_refl w) as Acc.
  unfold workflow. unfold_monad. reduce.
  step; [|conclude].
  step; [|conclude].
  step; [|conclude].
  destruct x1 as [[rid title|? ?]|]; reduce; [| conclude |].
  2: { step; conclude. }
  step_lookup.
  all: step_lookup.
  all: (step; [|conclude]).
  all: try conclude.
  step_send.
  all: repeat (step; [|try step_send]).
  all: try step_send.
  all: repeat step.
  all: conclude.
Qed.

Lemma staged_steps evs row : row ∈ staged evs → Insert row ∈ steps evs.
Proof.
  unfold staged, steps. intros H.
  apply list_elem_of_omap in H as (ev & Hev & Hs).
  apply list_elem_of_omap. exists ev. split; [done|].
  destruct ev as [[| ? []| | | | | | | | | | |] [e|]|]; try discriminate.
  by inversion Hs.
Qed.

Lemma committed_take (N U N' U' rows : list NotificationRow) :
  N' ++ U' = (N ++ U) ++ rows → N `prefix_of` N' →
  ∃ k, N' = N ++ take k (U ++ rows).
Proof.
  intros HL [X ->]. exists (length X).
  rewrite <- !app_assoc in HL. apply app_inv_head in HL.
  by rewrite <- HL, take_app_length.
Qed.

(** ** send_email *)

(** C4.  If one of the required settings (EMAIL_SENDER, EMAIL_HOST,
    EMAIL_USER, EMAIL_PASS) is unset (or empty), [send_email] returns
    [True] for every recipient, subject and body; it makes no call on the
    transport (the history gains nothing but the returned value, no session
    is created, nothing enters the outbox), and it prints the missing keys,
    joined by a comma, then the message it would have sent. *)
Theorem send_email_unconfigured recipient subject body w k :
  k ∈ required_keys →
  truthy (environ w !! k) = false →
  ∃ w', send_email recipient subject body w = (Ok true, w') ∧
    history w' = history w ++ [EvSent recipient true] ∧
    smtp w' = smtp w ∧ db w' = db w ∧
    k ∈ missing_keys w ∧
    stdout (out w') = stdout (out w) ++
      ["Email credentials not configured. Missing: " +:+
         join ", " (missing_keys w);
       "Would have sent to " +:+ recipient +:+ ": " +:+ subject] ∧
    email_debug_log (out w') = email_debug_log (out w) ∧
    crash_debug_log (out w') = crash_debug_log (out w).
Proof.
  intros Hk Hfalse.
  assert (k ∈ missing_keys w) as Hmiss
    by (unfold missing_keys; apply list_elem_of_filter; done).
  assert (configured w = false) as Hconf.
  { destruct (configured w) eqn:E; [|done].
    apply configured_missing in E. rewrite E in Hmiss. inversion Hmiss. }
  unfold send_email. unfold_monad. reduce.
  rewrite configured_forallb, Hconf, missing_keys_eq. reduce.
  eexists. split; [done|]. reduce. rewrite <- !app_assoc. done.
Qed.

Lemma send_email_unconfigured_witness :
  "EMAIL_PASS" ∈ required_keys ∧
  truthy (environ (world_demo (delete "EMAIL_PASS" env_full) healthy)
            !! "EMAIL_PASS") = false ∧
  ∃ w', send_email "reporter@back2u.test" "subject" "body"
          (world_demo (delete "EMAIL_PASS" env_full) healthy) = (Ok true, w') ∧
        smtp w' = smtp (world_demo (delete "EMAIL_PASS" env_full) healthy).
Proof.
  assert ("EMAIL_PASS" ∈ required_keys) as H1 by (repeat constructor).
  assert (truthy (environ (world_demo (delete "EMAIL_PASS" env_full) healthy)
            !! "EMAIL_PASS") = false) as H2 by (vm_compute; reflexivity).
  split; [exact H1|]. split; [exact H2|].
  destruct (send_email_unconfigured "reporter@back2u.test" "subject" "body"
              _ _ H1 H2) as (w' & E & _ & S & _).
  exists w'. split; [exact E | exact S].
Defined.

(** C3.  With a complete configuration, when the guarded transport block
    raises [e], [send_email] catches it: it returns [False], and
    [email_debug.log] gains exactly one line, made of the recipient address
    and the text of [e] (the same line is printed).  Moreover [send_email]
    hands back a boolean in every world: no exception of the transport
    reaches its caller. *)
Theorem send_email_transport_failure :
  (∀ recipient subject body w e w1,
     configured w = true →
     deliver (environ w !! "EMAIL_SENDER") recipient
       (MIMEMultipart (environ w !! "EMAIL_SENDER") recipient subject body) w
       = (Raise e, w1) →
     ∃ w', send_email recipient subject body w = (Ok false, w') ∧
       email_debug_log (out w') = email_debug_log (out w) ++
         ["ERROR sending email to " +:+ recipient +:+ ": " +:+ e] ∧
       stdout (out w') = stdout (out w) ++
         ["ERROR sending email to " +:+ recipient +:+ ": " +:+ e]) ∧
  (∀ recipient subject body w,
     ∃ ok w', send_email recipient subject body w = (Ok ok, w')).
Proof.
  split.
  - intros r s b w e w1 Hconf Hraise.
    pose proof (deliver_cases (environ w !! "EMAIL_SENDER") r
      (MIMEMultipart (environ w !! "EMAIL_SENDER") r s b) w) as H.
    rewrite Hraise in H. destruct H as (_ & _ & O).
    unfold send_email. unfold_monad. reduce.
    rewrite configured_forallb, Hconf. reduce. rewrite Hraise.
    eexists. split; [done|]. reduce. by rewrite O.
  - intros r s b w.
    destruct (send_email_trans r s b w) as (ok & w' & E & _). eauto.
Qed.

Lemma send_email_transport_failure_witness :
  ∃ w', send_email "reporter@back2u.test" "subject" "body"
          (world_demo env_full (refuses "reporter@back2u.test")) = (Ok false, w') ∧
        email_debug_log (out w') =
          ["ERROR sending email to reporter@back2u.test: Recipient address rejected"].
Proof.
  destruct (proj1 send_email_transport_failure
              "reporter@back2u.test" "subject" "body"
              (world_demo env_full (refuses "reporter@back2u.test"))
              "Recipient address rejected"
              (snd (deliver (Some "noreply@back2u.test") "reporter@back2u.test"
                      (MIMEMultipart (Some "noreply@back2u.test")
                         "reporter@back2u.test" "subject" "body")
                      (world_demo env_full (refuses "reporter@back2u.test")))))
    as (w' & E & L & _).
  - vm_compute. reflexivity.
  - vm_compute. reflexivity.
  - exists w'. split; [exact E | exact L].
Defined.

(** C10.  With a complete configuration and a value of EMAIL_PORT on which
    [int] raises, [send_email] does not raise: the conversion sits inside
    the guarded block, so the error [e] of [int] becomes the result [False]
    and one line in [email_debug.log] with the recipient and the text of
    [e], as for a failure of the transport; no call on the transport is
    made. *)
Theorem send_email_bad_port recipient subject body w p e :
  configured w = true →
  environ w !! "EMAIL_PORT" = Some p →
  faults w (history w) (CInt p) = Some e →
  ∃ w', send_email recipient subject body w = (Ok false, w') ∧
    email_debug_log (out w') = email_debug_log (out w) ++
      ["ERROR sending email to " +:+ recipient +:+ ": " +:+ e] ∧
    history w' = history w ++
      [EvCall (CInt p) (Some e); EvSent recipient false] ∧
    smtp w' = smtp w.
Proof.
  intros Hconf Hport Hint.
  unfold send_email, deliver, email_port. unfold_monad. reduce.
  rewrite configured_forallb, Hconf. reduce. rewrite Hport. reduce.
  rewrite Hint. reduce.
  eexists. split; [done|]. reduce. by rewrite <- !app_assoc.
Qed.

Lemma send_email_bad_port_witness :
  ∃ w', send_email "reporter@back2u.test" "subject" "body"
          (world_demo (<["EMAIL_PORT" := "smtp"]> env_full) port_unreadable)
        = (Ok false, w') ∧
        email_debug_log (out w') =
          ["ERROR sending email to reporter@back2u.test: invalid literal for int() with base 10: 'smtp'"] ∧
        smtp w' = {| sessions := 0; outbox := [] |}.
Proof.
  destruct (send_email_bad_port "reporter@back2u.test" "subject" "body"
              (world_demo (<["EMAIL_PORT" := "smtp"]> env_full) port_unreadable)
              "smtp" "invalid literal for int() with base 10: 'smtp'")
    as (w' & E & L & _ & S); try (vm_compute; reflexivity).
  exists w'. split; [exact E|]. split; [exact L | exact S].
Defined.

(** ** get_user_email *)

(** C8, as the code has it.  Given a cursor by its caller, or having
    obtained its own, [get_user_email] never raises: for a user id that is
    not in [Users], and likewise when a call of the lookup raises, it
    returns [None], and whenever it returns [None] it has printed exactly
    one diagnostic, the warning that the user was not found or the error of
    the failed query. *)
Theorem get_user_email_not_found uid cursor w :
  (cursor = None →
   faults w (history w) (CGetCursor (length (cursors (db w))) true) = None) →
  ∃ r w' new, get_user_email uid cursor w = (Ok r, w') ∧
    history w' = history w ++ new ∧
    ((∀ u, u ∈ Users (db w) → user_id u ≠ uid) → r = None) ∧
    (raises new ≠ [] → r = None) ∧
    (r = None →
     (raises new = [] ∧
      stdout (out w') = stdout (out w) ++
        ["Warning: User with ID " +:+ pretty uid +:+ " not found."]) ∨
     (∃ e, head (raises new) = Some e ∧
      stdout (out w') = stdout (out w) ++
        ["Error fetching user " +:+ pretty uid +:+ ": " +:+ e])).
Proof.
  intros Hown.
  assert (∃ r w' new, get_user_email uid cursor w = (Ok r, w') ∧
            history w' = history w ++ new ∧ lookup_outcome uid w w' new r)
    as (r & w' & new & E & Hh & Hout).
  { destruct cursor as [c|].
    - destruct (get_user_email_borrowed uid c w)
        as (r & w' & new & ? & ? & ? & ? & ? & ? & ? & ? & ? & ?).
      by eexists _, _, _.
    - pose proof (get_user_email_owned uid w) as H. cbn zeta in H.
      rewrite (Hown eq_refl) in H.
      destruct H as (r & w' & new & ? & ? & ? & ? & ?). by eexists _, _, _. }
  exists r, w', new. split; [done|]. split; [done|].
  destruct Hout as [(u & Hu & Hid & -> & _ & Hr)
                   |[(-> & Habs & Hr & Hw)|(-> & e & He & Hw)]].
  - split_and!; [|by rewrite Hr|done]. intros Habs. by destruct (Habs u Hu).
  - split_and!; try done. intros _. by left.
  - split_and!; try done. intros _. right. eauto.
Qed.

Lemma get_user_email_not_found_witness :
  ∃ w', get_user_email 7 None (world_demo env_full healthy) = (Ok None, w') ∧
        stdout (out w') = ["Warning: User with ID 7 not found."].
Proof.
  destruct (get_user_email_not_found 7 None (world_demo env_full healthy))
    as (r & w' & new & E & _ & Habs & _ & Hnone).
  - intros _. reflexivity.
  - exists w'.
    assert (r = None) as ->.
    { apply Habs. intros u Hu Hid.
      repeat (apply elem_of_cons in Hu as [->|Hu]; [discriminate Hid|]).
      by apply elem_of_nil in Hu. }
    split; [exact E|].
    assert (snd (get_user_email 7 None (world_demo env_full healthy)) = w')
      as <- by (by rewrite E).
    vm_compute. reflexivity.
Defined.

(** C8, as stated, fails when [get_user_email] has to open its own cursor
    and cannot: the acquisition on line 18 precedes the [try]. *)
Lemma get_user_email_raises :
  fst (get_user_email 7 None (world_demo env_full db_down))
  = Raise "Can't connect to MySQL server".
Proof. vm_compute. reflexivity. Qed.

(** C9.  [get_user_email] issues no [close()] on a cursor of its caller,
    and no cursor changes between open and closed.  When it opens its own
    cursor it issues a [close()] on it before it returns, on every path,
    and the cursor is closed at the return unless each of these calls
    raised; when it cannot open a cursor, none is left behind. *)
Theorem get_user_email_cursor_ownership uid w :
  (∀ c, ∃ r w' new, get_user_email uid (Some c) w = (Ok r, w') ∧
     history w' = history w ++ new ∧
     close_calls c new = [] ∧
     ∀ h, c_open <$> cursors (db w') !! h = c_open <$> cursors (db w) !! h) ∧
  (let h := length (cursors (db w)) in
   match faults w (history w) (CGetCursor h true) with
   | Some e =>
       cursors (db (snd (get_user_email uid None w))) = cursors (db w)
   | None =>
       ∃ r w' new, get_user_email uid None w = (Ok r, w') ∧
         history w' = history w ++ new ∧
         close_calls h new ≠ [] ∧
         ∃ c, cursors (db w') = cursors (db w) ++ [c] ∧
              (c_open c = false ∨ None ∉ close_calls h new)
   end).
Proof.
  split.
  - intros c.
    destruct (get_user_email_borrowed uid c w)
      as (r & w' & new & ? & ? & ? & ? & ? & ? & ? & ?).
    by eexists _, _, _.
  - pose proof (get_user_email_owned uid w) as H. cbn zeta in *.
    destruct (faults w (history w) (CGetCursor (length (cursors (db w))) true)).
    + by rewrite H.
    + destruct H as (r & w' & new & ? & ? & ? & ? & ?). by eexists _, _, _.
Qed.

(** The cursor of the caller stays open across a lookup that fails, and the
    own cursor is closed on the not-found path. *)
Example get_user_email_cursor_demo :
  cursors (db (snd (get_user_email 7 None (world_demo env_full healthy))))
  = [{| c_open := false; c_rows := [] |}] ∧
  cursors (db (snd (
    (c <- get_cursor true ;; get_user_email 7 (Some c))
      (world_demo env_full healthy))))
  = [{| c_open := true; c_rows := [] |}].
Proof. split; vm_compute; reflexivity. Qed.

(** ** send_claim_resolved_emails *)

(** The frame around the workflow: the trace line of line 97, the handler
    of lines 167-169 and [db.close()] of line 172.  Whatever the guarded
    suite raises is caught by the handler, which prints a diagnostic and
    appends a CRASH line; then [db.close()] is called, and the outcome of
    the run is the outcome of that call. *)
Lemma top_level_handler item_id claimant_id admin_id w e w1 :
  workflow item_id claimant_id admin_id
    (snd (log_debug ("Starting send_claim_resolved_emails for Item " +:+
                     pretty item_id) w)) = (Raise e, w1) →
  ∃ r wf,
    send_claim_resolved_emails item_id claimant_id admin_id w = (r, wf) ∧
    history wf = history w1 ++ [EvCall CDbClose (raised r)] ∧
    raised r = faults w1 (history w1) CDbClose ∧
    stdout (out wf) = stdout (out w1) ++
      ["Error in send_claim_resolved_emails (background): " +:+ e] ∧
    crash_debug_log (out wf) = crash_debug_log (out w1) ++
      ["CRASH: " +:+ e] ∧
    email_debug_log (out wf) = email_debug_log (out w1).
Proof.
  unfold send_claim_resolved_emails. unfold_monad. reduce.
  intros ->. reduce.
  destruct (faults w1 (history w1) CDbClose) eqn:F; reduce.
  all: eexists _, _; (split; [reflexivity|]); by reduce.
Qed.

(** C1.  In every run of the workflow the sends and the inserts are paired:
    after a send that reported failure nothing is inserted; after a send
    that reported success exactly one insert is attempted (one cursor is
    acquired and, unless that raised, one INSERT is issued), for a user
    with the address the mail went to, with type EMAIL and status SENT;
    and no INSERT is issued otherwise.  The rows committed by the run are
    among those that were pending before and those inserted this way.  The
    run ends with [db.close()] and returns normally unless that call
    raises. *)
Theorem notification_iff_sent item_id claimant_id admin_id w :
  ∃ r wf new,
    send_claim_resolved_emails item_id claimant_id admin_id w = (r, wf) ∧
    match faults w (history w ++ new) CDbClose with
    | None => r = Ok tt
    | Some e => r = Raise e
    end ∧
    history wf = history w ++ new ++ [EvCall CDbClose (raised r)] ∧
    paired (Users (db w)) (steps new) ∧
    (∀ row, row ∈ staged new → Insert row ∈ steps new) ∧
    ∃ k, Notifications (db wf) =
         Notifications (db w) ++ take k (uncommitted (db w) ++ staged new).
Proof.
  unfold send_claim_resolved_emails. unfold_monad. reduce.
  match goal with
  | |- context [workflow ?i ?c ?a ?W] =>
      destruct (workflow_trans i c a W) as (r1 & w1 & ss & rows & E & T & P);
      rewrite E
  end.
  reduce.
  destruct T as [_ Hf _ _ (new & Hh & <- & <-) HL HC].
  unfold ledger in HL. reduce.
  destruct (committed_take _ _ _ _ _ HL HC) as [k Hk].
  destruct r1 as [[]|e]; reduce.
  all: rewrite Hf, Hh.
  all: destruct (faults w (history w ++ new) CDbClose) eqn:F; reduce.
  all: eexists _, _, new; (split; [reflexivity|]); reduce.
  all: rewrite F, ?Hh, <- ?app_assoc.
  all: split_and!; try done; try apply staged_steps; by exists k.
Qed.

(** C2, at inputs where the code falls short of it.  The handler of lines
    167-169 covers the guarded suite, but [db.close()] on line 172 sits in
    the [finally] clause, outside every handler.  When it raises, the
    exception leaves [send_claim_resolved_emails]: in the first run below
    after both mails were sent and both rows committed, with no CRASH line
    in the trace; in the second after the handler had dealt with a failed
    query.  The connection stays open.  (The trace writes of lines 97 and
    169 are unguarded in the same way; they are not exercised here, since
    the trace file is taken to be writable.) *)
Example send_claim_resolved_emails_raises :
  let r := send_claim_resolved_emails 42 2 9 (world_demo env_full close_broken) in
  let r' := send_claim_resolved_emails 42 2 9
              (world_demo env_full items_and_close_broken) in
  fst r = Raise "MySQL Connection not available." ∧
  Notifications (db (snd r)) =
    [email_row 1 reporter_message; email_row 2 claimant_message] ∧
  stdout (out (snd r)) = [] ∧
  last (crash_debug_log (out (snd r))) = Some "Notification inserted." ∧
  connected (db (snd r)) = true ∧
  fst r' = Raise "MySQL Connection not available." ∧
  stdout (out (snd r')) =
    ["Error in send_claim_resolved_emails (background): Table 'Items' doesn't exist"] ∧
  last (crash_debug_log (out (snd r'))) =
    Some "CRASH: Table 'Items' doesn't exist" ∧
  connected (db (snd r')) = true.
Proof. vm_compute. done. Qed.

(** The handler at the top is reached, for instance when the query on Items
    raises. *)
Example send_claim_resolved_emails_crash_demo :
  let r := send_claim_resolved_emails 42 2 9 (world_demo env_full items_broken) in
  fst r = Ok tt ∧
  stdout (out (snd r)) =
    ["Error in send_claim_resolved_emails (background): Table 'Items' doesn't exist"] ∧
  crash_debug_log (out (snd r)) =
    ["Starting send_claim_resolved_emails for Item 42";
     "Getting cursor from thread-local db...";
     "Fetching item info...";
     "CRASH: Table 'Items' doesn't exist"].
Proof. vm_compute. done. Qed.

(** [db.close()] is the last call of every run, and when it goes through
    the connection of the thread is closed. *)
Lemma connection_closed item_id claimant_id admin_id w :
  let r := send_claim_resolved_emails item_id claimant_id admin_id w in
  last (history (snd r)) = Some (EvCall CDbClose (raised (fst r))) ∧
  (fst r = Ok tt → connected (db (snd r)) = false).
Proof.
  unfold send_claim_resolved_emails. unfold_monad. reduce.
  match goal with
  | |- context [workflow ?i ?c ?a ?W] =>
      destruct (workflow i c a W) as [[[]|e] w1]
  end; reduce.
  all: match goal with
       | |- context [faults ?W ?h CDbClose] =>
           destruct (faults W h CDbClose) eqn:F
       end; reduce.
  all: by rewrite last_snoc.
Qed.

(** C7, at an input where the code falls short of it.  The query on Items
    raises: the run acquired the cursor 0, the handler at the top and the
    [finally] clause ran and the connection is closed, but no [close()] was
    ever issued on the cursor, which is still open at the return. *)
Example cursor_left_open_on_crash :
  let r := send_claim_resolved_emails 42 2 9 (world_demo env_full items_broken) in
  fst r = Ok tt ∧
  history (snd r) =
    [EvCall (CGetCursor 0 true) None;
     EvCall (CExecute 0 (SelectItem 42)) (Some "Table 'Items' doesn't exist");
     EvCall CDbClose None] ∧
  close_calls 0 (history (snd r)) = [] ∧
  cursors (db (snd r)) = [{| c_open := true; c_rows := [] |}] ∧
  connected (db (snd r)) = false.
Proof. vm_compute. done. Qed.

(** The same happens to the cursor of an insert that fails: both cursors
    acquired for the notifications stay open. *)
Example insert_cursor_left_open :
  let r := send_claim_resolved_emails 42 2 9 (world_demo env_full insert_broken) in
  fst r = Ok tt ∧
  c_open <$> cursors (db (snd r)) = [false; true; true] ∧
  close_calls 1 (history (snd r)) = [] ∧
  close_calls 2 (history (snd r)) = [] ∧
  connected (db (snd r)) = false.
Proof. vm_compute. done. Qed.

(** On the paths without an exception the cursors are closed. *)
Example cursors_closed_on_normal_paths :
  c_open <$> cursors (db (snd
    (send_claim_resolved_emails 42 2 9 (world_demo env_full healthy))))
  = [false; false; false] ∧
  c_open <$> cursors (db (snd
    (send_claim_resolved_emails 41 2 9 (world_demo env_full healthy))))
  = [false] ∧
  c_open <$> cursors (db (snd
    (send_claim_resolved_emails 42 3 9 (world_demo env_full healthy))))
  = [false].
Proof. vm_compute. done. Qed.

(** ** insert_notification *)

(** C5, as stated, fails: [insert_notification] has no handler, so a failing
    INSERT reaches its caller as an exception, and nothing is printed. *)
Lemma insert_notification_raises :
  let r := insert_notification 1 reporter_message (Notification_TYPES "EMAIL")
             (world_demo env_full insert_broken) in
  fst r = Raise "Lock wait timeout exceeded" ∧ stdout (out (snd r)) = [].
Proof. vm_compute. done. Qed.

(** C5, as the code has it.  [insert_notification] takes a user id, a
    message and a type; the status is always SENT.  When it returns, it has
    acquired its own cursor, issued one INSERT, committed at once and closed
    the cursor, and the table has gained the row.  When one of these four
    calls raises, the exception reaches the caller and nothing is printed.
    In the workflow the insert is written inline instead
    ([notify_insert]): there a failure is caught, printed and appended to
    [crash_debug.log], and the suite ends normally. *)
Theorem insert_notification_commits_or_raises uid message ty who w :
  let row := {| n_user_id := uid; n_message := message; n_type := ty;
                n_status := Notification_STATUSES "SENT" |} in
  let h := length (cursors (db w)) in
  match insert_notification uid message ty w with
  | (Ok _, w') =>
      history w' = history w ++
        [EvCall (CGetCursor h false) None;
         EvCall (CExecute h (InsertNotification row)) None;
         EvCall CCommit None;
         EvCall (CCursorClose h) None] ∧
      Notifications (db w') =
        Notifications (db w) ++ uncommitted (db w) ++ [row] ∧
      uncommitted (db w') = [] ∧
      out w' = out w
  | (Raise e, w') =>
      out w' = out w ∧
      ∃ new, history w' = history w ++ new ∧ raises new = [e]
  end ∧
  ∃ w' new, notify_insert who uid message w = (Ok tt, w') ∧
    history w' = history w ++ new ∧
    (raises new = [] →
     Notifications (db w') =
       Notifications (db w) ++ uncommitted (db w) ++ [email_row uid message] ∧
     stdout (out w') = stdout (out w)) ∧
    (∀ e, head (raises new) = Some e →
     stdout (out w') = stdout (out w) ++
       ["Error inserting notification: " +:+ e] ∧
     crash_debug_log (out w') = crash_debug_log (out w) ++
       ["Inserting notification for " +:+ who +:+ "...";
        "Error inserting notification: " +:+ e]).
Proof.
  split.
  - unfold insert_notification, get_cursor, execute, commit, cursor_close.
    unfold_monad. split_calls.
    all: split_and?; try done.
    all: try (rewrite <- ?app_assoc; reflexivity).
    all: eexists; split; [rewrite <- ?app_assoc; reflexivity | done].
  - destruct (notify_insert_cases who uid message w)
      as (w' & new & ss & rows & E & Hh & _ & _ & _ & _ & Hok & Herr).
    exists w', new. split_and!; try done.
    intros Hr. by destruct (Hok Hr) as (? & _ & ? & _).
Qed.

(** ** The scenario of a failed reporter email *)

Lemma eqb_succ n : Nat.eqb (S n) n = false.
Proof. apply Nat.eqb_neq. lia. Qed.

Ltac sim_leaf Hf :=
  repeat (progress (norm_own; rewrite ?Hf, ?Nat.eqb_refl, ?eqb_succ)).

(** The three blocks of the scenario, under its oracle. *)
Lemma send_email_breaks r s b W s0 st e :
  configured W = true →
  sessions (smtp W) = s0 →
  (∀ hist c, faults W hist c = if fails_at s0 st c then Some e else None) →
  ∃ W', send_email r s b W = (Ok false, W') ∧
    db W' = db W ∧ environ W' = environ W ∧ faults W' = faults W ∧
    sessions (smtp W') = S s0 ∧
    stdout (out W') = stdout (out W) ++
      ["ERROR sending email to " +:+ r +:+ ": " +:+ e] ∧
    email_debug_log (out W') = email_debug_log (out W) ++
      ["ERROR sending email to " +:+ r +:+ ": " +:+ e] ∧
    crash_debug_log (out W') = crash_debug_log (out W) ∧
    ∃ new, history W' = history W ++ new ∧
           steps new = [Sent r false] ∧ staged new = [].
Proof.
  intros Hconf <- Hf.
  unfold send_email, deliver, email_port, SMTP, starttls, login, sendmail, quit.
  unfold_monad. reduce.
  rewrite configured_forallb, Hconf. reduce.
  destruct (environ W !! "EMAIL_PORT"); destruct st; sim_leaf Hf.
  all: eexists; split; [reflexivity|]; reduce; split_and!; try done.
  all: eexists; split; [rewrite <- ?app_assoc; reflexivity|done].
Qed.

Lemma send_email_delivers r s b W s0 st e :
  configured W = true →
  sessions (smtp W) = S s0 →
  (∀ hist c, faults W hist c = if fails_at s0 st c then Some e else None) →
  ∃ W', send_email r s b W = (Ok true, W') ∧
    db W' = db W ∧ environ W' = environ W ∧ faults W' = faults W ∧
    stdout (out W') = stdout (out W) ∧
    email_debug_log (out W') = email_debug_log (out W) ++
      ["SUCCESS: Sent to " +:+ r] ∧
    crash_debug_log (out W') = crash_debug_log (out W) ∧
    ∃ new, history W' = history W ++ new ∧
           steps new = [Sent r true] ∧ staged new = [].
Proof.
  intros Hconf Hs Hf.
  unfold send_email, deliver, email_port, SMTP, starttls, login, sendmail, quit.
  unfold_monad. reduce.
  rewrite configured_forallb, Hconf. reduce.
  destruct (environ W !! "EMAIL_PORT"); destruct st;
    repeat (progress (norm_own; rewrite ?Hf, ?Hs, ?eqb_succ)).
  all: eexists; split; [reflexivity|]; reduce; split_and!; try done.
  all: eexists; split; [rewrite <- ?app_assoc; reflexivity|done].
Qed.

Lemma notify_insert_succeeds who uid message W s0 st e :
  (∀ hist c, faults W hist c = if fails_at s0 st c then Some e else None) →
  ∃ W', notify_insert who uid message W = (Ok tt, W') ∧
    environ W' = environ W ∧ faults W' = faults W ∧
    Notifications (db W') =
      Notifications (db W) ++ uncommitted (db W) ++ [email_row uid message] ∧
    stdout (out W') = stdout (out W) ∧
    email_debug_log (out W') = email_debug_log (out W) ∧
    crash_debug_log (out W') = crash_debug_log (out W) ++
      ["Inserting notification for " +:+ who +:+ "...";
       "Notification inserted."] ∧
    ∃ new, history W' = history W ++ new ∧
           steps new = [Acquire true; Insert (email_row uid message)].
Proof.
  intros Hf.
  unfold notify_insert, get_cursor, execute, commit, cursor_close, email_row.
  unfold_monad. sim_leaf Hf.
  eexists; split; [reflexivity|]; reduce; split_and!; try done.
  - by rewrite <- !app_assoc.
  - eexists; split; [rewrite <- ?app_assoc; reflexivity|done].
Qed.

(** The workflow, with its two insert suites named. *)
Lemma workflow_unfold item_id claimant_id admin_id :
  workflow item_id claimant_id admin_id =
  (log_debug "Getting cursor from thread-local db..." ;;;
   cursor <- get_cursor true ;;
   log_debug "Fetching item info..." ;;;
   execute cursor (SelectItem item_id) ;;;
   item_info <- fetchone cursor ;;
   match item_info with
   | None =>
       print ("Warning: Item with ID " +:+ pretty item_id +:+ " not found.") ;;;
       log_debug "Item not found." ;;;
       cursor_close cursor ;;;
       ret tt
   | Some item_info =>
       reporter_id <- row_reported_by item_info ;;
       item_title <- row_title item_info ;;
       log_debug ("Fetching reporter " +:+ pretty reporter_id +:+ "...") ;;;
       reporter <- get_user_email reporter_id (Some cursor) ;;
       log_debug ("Fetching claimant " +:+ pretty claimant_id +:+ "...") ;;;
       claimant <- get_user_email claimant_id (Some cursor) ;;
       log_debug "Closing cursor..." ;;;
       cursor_close cursor ;;;
       match reporter, claimant with
       | Some reporter, Some claimant =>
           reporter_name <- row_name reporter ;;
           claimant_name <- row_name claimant ;;
           let r_subject := reporter_subject item_title in
           let r_body :=
             reporter_body reporter_name item_title admin_id claimant_name in
           log_debug "Sending email to reporter..." ;;;
           reporter_email <- row_email reporter ;;
           ok <- send_email reporter_email r_subject r_body ;;
           (if ok : bool
            then notify_insert "reporter" reporter_id reporter_message
            else ret tt) ;;;
           let c_subject := claimant_subject item_title in
           claimant_name' <- row_name claimant ;;
           reporter_name' <- row_name reporter ;;
           reporter_email' <- row_email reporter ;;
           let c_body :=
             claimant_body claimant_name' item_title reporter_name'
               reporter_email' in
           log_debug "Sending email to claimant..." ;;;
           claimant_email <- row_email claimant ;;
           ok <- send_email claimant_email c_subject c_body ;;
           (if ok : bool
            then notify_insert "claimant" claimant_id claimant_message
            else ret tt)
       | _, _ =>
           print "Warning: Missing user data for reporter or claimant. Skipping email notifications." ;;;
           log_debug "Missing user data." ;;;
           ret tt
       end
   end).
Proof. reflexivity. Qed.

(** A call that the oracle lets through. *)
Lemma call_ok {A} c (run : World → Res A * World) W :
  faults W (history W) c = None →
  call c run W = (let (r, W') := run W in (r, note (EvCall c (raised r)) W')).
Proof. intros H. unfold call. by rewrite H. Qed.

Lemma configured_env W W' : environ W' = environ W → configured W' = configured W.
Proof. unfold configured. by intros ->. Qed.

Ltac flatten :=
  cbn [note set_out set_db set_smtp set_cursors
       environ db smtp out history faults
       Users Items Notifications uncommitted connected cursors
       sessions outbox stdout email_debug_log crash_debug_log
       c_open c_rows fst snd raised negb].

Ltac flatten_in H :=
  cbn [note set_out set_db set_smtp set_cursors
       environ db smtp out history faults
       Users Items Notifications uncommitted connected cursors
       sessions outbox stdout email_debug_log crash_debug_log
       c_open c_rows fst snd raised negb] in H.

Ltac crunch :=
  cbv beta iota zeta delta [fst snd raised c_rows c_open negb].

Ltac oracle Hf :=
  flatten; rewrite Hf; reflexivity.

Ltac cursor_is_open :=
  match goal with
  | |- context [open_cursor ?h ?d] =>
      erewrite (proj2 (open_cursor_lookup h d _))
        by (split; [flatten; rewrite ?insert_fresh; apply lookup_fresh
                   |reflexivity])
  end.

Ltac settle_handles w :=
  repeat match goal with
  | |- context [cursors (db ?W)] =>
      lazymatch W with
      | w => fail
      | _ => change (cursors (db W)) with (cursors (db w))
      end
  | |- context [Users (db ?W)] =>
      lazymatch W with
      | w => fail
      | _ => change (Users (db W)) with (Users (db w))
      end
  | |- context [Items (db ?W)] =>
      lazymatch W with
      | w => fail
      | _ => change (Items (db W)) with (Items (db w))
      end
  end.

Ltac ostep w Hf :=
  settle_handles w;
  match goal with
  | |- context [call ?c ?run ?W] =>
      rewrite (call_ok c run W) by (oracle Hf);
      crunch; try cursor_is_open; crunch
  end.

(** C6.  The item and both users exist, the configuration is complete, the
    SMTP session of the reporter breaks (at any one of its five calls) and
    every other call goes through: the calls on the database, the reading
    of the port, the rendering of both messages by [as_string] and the
    session of the claimant.  Then the claimant is still mailed and the
    run ends normally: the INSERT for the claimant is the only one, its
    row is committed, [email_debug.log] gains one failure line and one
    success line, and [crash_debug.log] shows the run up to the last line
    of the workflow, with no CRASH line. *)
Theorem reporter_send_fails_claimant_notified
    i cid a w rid title irest re rn rrest ce cn crest st e :
  item_rows i (Items (db w)) = RowItem rid title :: irest →
  user_rows rid (Users (db w)) = RowUser re rn :: rrest →
  user_rows cid (Users (db w)) = RowUser ce cn :: crest →
  configured w = true →
  (∀ hist c, faults w hist c =
             if fails_at (sessions (smtp w)) st c then Some e else None) →
  ∃ wf new,
    send_claim_resolved_emails i cid a w = (Ok tt, wf) ∧
    history wf = history w ++ new ∧
    steps new = [Sent re false; Sent ce true; Acquire true;
                 Insert (email_row cid claimant_message)] ∧
    Notifications (db wf) =
      Notifications (db w) ++ uncommitted (db w) ++
      [email_row cid claimant_message] ∧
    email_debug_log (out wf) = email_debug_log (out w) ++
      ["ERROR sending email to " +:+ re +:+ ": " +:+ e;
       "SUCCESS: Sent to " +:+ ce] ∧
    stdout (out wf) = stdout (out w) ++
      ["ERROR sending email to " +:+ re +:+ ": " +:+ e] ∧
    crash_debug_log (out wf) = crash_debug_log (out w) ++
      ["Starting send_claim_resolved_emails for Item " +:+ pretty i;
       "Getting cursor from thread-local db...";
       "Fetching item info...";
       "Fetching reporter " +:+ pretty rid +:+ "...";
       "Fetching claimant " +:+ pretty cid +:+ "...";
       "Closing cursor...";
       "Sending email to reporter...";
       "Sending email to claimant...";
       "Inserting notification for claimant...";
       "Notification inserted."].
Proof.
  intros Hitem Hrep Hcl Hconf Hf.
  unfold send_claim_resolved_emails. rewrite workflow_unfold.
  unfold get_user_email, get_cursor, execute, fetchone, cursor_close,
    row_reported_by, row_title, row_name, row_email.
  unfold print, log_debug, bind, try_except, try_finally, ret, raise.
  crunch.
  repeat first
    [ ostep w Hf
    | progress (rewrite ?Hitem, ?Hrep, ?Hcl); crunch ].
  match goal with
  | |- context [send_email ?r ?s ?b ?W] =>
      destruct (send_email_breaks r s b W (sessions (smtp w)) st e)
        as (W1 & E1 & D1 & V1 & F1 & S1 & O1 & L1 & C1 & n1 & H1 & T1 & _);
        [exact Hconf | reflexivity | exact Hf |];
      rewrite E1; clear E1; crunch
  end.
  flatten_in D1; flatten_in V1; flatten_in F1; flatten_in O1; flatten_in L1;
    flatten_in C1; flatten_in H1.
  match goal with
  | |- context [send_email ?r ?s ?b ?W] =>
      destruct (send_email_delivers r s b W (sessions (smtp w)) st e)
        as (W2 & E2 & D2 & V2 & F2 & O2 & L2 & C2 & n2 & H2 & T2 & _);
        [ rewrite <- Hconf; apply configured_env; flatten; by rewrite V1
        | exact S1
        | intros hist c; flatten; rewrite F1; apply Hf |];
      rewrite E2; clear E2; crunch
  end.
  flatten_in D2; flatten_in V2; flatten_in F2; flatten_in O2; flatten_in L2;
    flatten_in C2; flatten_in H2.
  match goal with
  | |- context [notify_insert ?who ?u ?m ?W] =>
      destruct (notify_insert_succeeds who u m W (sessions (smtp w)) st e)
        as (W3 & E3 & V3 & F3 & N3 & O3 & L3 & C3 & n3 & H3 & T3);
        [ intros hist c; flatten; rewrite F2, F1; apply Hf |];
      rewrite E3; clear E3; crunch
  end.
  flatten_in N3; flatten_in O3; flatten_in L3; flatten_in C3; flatten_in H3.
  unfold db_close.
  rewrite call_ok by (rewrite F3, F2, F1, Hf; reflexivity).
  crunch.
  eexists _, _. split; [reflexivity|]. flatten.
  rewrite H3, H2, H1, N3, O3, L3, C3, D2, D1, O2, O1, L2, L1, C2, C1.
  flatten. rewrite ?insert_fresh.
  split; [rewrite <- !app_assoc; reflexivity|].
  unfold steps. rewrite !omap_app. fold (steps n1) (steps n2) (steps n3).
  rewrite T1, T2, T3.
  split_and!; try reflexivity; rewrite <- ?app_assoc; try reflexivity.
Qed.

Lemma reporter_send_fails_claimant_notified_witness :
  let w := world_demo env_full (breaks 0 AtConnect "Connection refused") in
  ∃ wf,
    send_claim_resolved_emails 42 2 9 w = (Ok tt, wf) ∧
    Notifications (db wf) = [email_row 2 claimant_message] ∧
    email_debug_log (out wf) =
      ["ERROR sending email to reporter@back2u.test: Connection refused";
       "SUCCESS: Sent to claimant@back2u.test"].
Proof.
  intros w.
  destruct (reporter_send_fails_claimant_notified 42 2 9 w
              1 "Blue Backpack" [] "reporter@back2u.test" "Asha" []
              "claimant@back2u.test" "Ravi" [] AtConnect
              "Connection refused")
    as (wf & new & E & _ & _ & N & L & _); try reflexivity.
  exists wf. split; [exact E|]. split; [exact N | exact L].
Defined.

(** * Further properties of the module *)

(** ** send_email, beyond the claims *)

Lemma snoc_eq {A} (h l L : list A) x : L = h ++ l → L ++ [x] = h ++ l ++ [x].
Proof. intros ->. by rewrite app_assoc. Qed.

(** A send in which every call goes through. *)
Lemma send_email_goes_through r s b W :
  configured W = true →
  (∀ hist c, is_mail c = true → faults W hist c = None) →
  ∃ W', send_email r s b W = (Ok true, W') ∧
    db W' = db W ∧ environ W' = environ W ∧ faults W' = faults W ∧
    sessions (smtp W') = S (sessions (smtp W)) ∧
    outbox (smtp W') = outbox (smtp W) ++ [letter (environ W) r s b] ∧
    stdout (out W') = stdout (out W) ∧
    email_debug_log (out W') = email_debug_log (out W) ++
      ["SUCCESS: Sent to " +:+ r] ∧
    crash_debug_log (out W') = crash_debug_log (out W) ∧
    history W' = history W ++ session (sessions (smtp W)) (environ W) r s b.
Proof.
  intros Hconf Hf.
  unfold send_email, deliver, email_port, SMTP, starttls, login, sendmail, quit.
  unfold session, port_arg, letter.
  unfold_monad. reduce.
  rewrite configured_forallb, Hconf. reduce.
  destruct (environ W !! "EMAIL_PORT").
  all: repeat (progress (reduce; rewrite ?Hf by reflexivity)).
  all: eexists; (split; [reflexivity|]); reduce; split_and!; try done.
  all: by rewrite <- !app_assoc.
Qed.

(** A send without configuration. *)
Lemma send_email_dry r s b W :
  configured W = false →
  ∃ W', send_email r s b W = (Ok true, W') ∧
    db W' = db W ∧ environ W' = environ W ∧ faults W' = faults W ∧
    smtp W' = smtp W ∧
    stdout (out W') = stdout (out W) ++
      ["Email credentials not configured. Missing: " +:+
         join ", " (missing_keys W);
       "Would have sent to " +:+ r +:+ ": " +:+ s] ∧
    email_debug_log (out W') = email_debug_log (out W) ∧
    crash_debug_log (out W') = crash_debug_log (out W) ∧
    history W' = history W ++ [EvSent r true].
Proof.
  intros Hconf.
  unfold send_email. unfold_monad. reduce.
  rewrite configured_forallb, Hconf, missing_keys_eq. reduce.
  eexists. split; [reflexivity|]. reduce. split_and!; try done.
  by rewrite <- !app_assoc.
Qed.

(** X1.  With a complete configuration, when [int], [as_string] and the
    transport go through, [send_email] reads the port, opens one session
    with the host and port of the environment, upgrades it, logs in with
    the configured user and password, hands over one message from the
    configured sender to the recipient with the given subject and body,
    quits, appends one SUCCESS line and returns [True]; nothing is printed,
    and neither the database nor [crash_debug.log] is touched. *)
Theorem send_email_delivers_message recipient subject body w :
  configured w = true →
  (∀ hist c, is_mail c = true → faults w hist c = None) →
  ∃ w', send_email recipient subject body w = (Ok true, w') ∧
    history w' = history w ++
      session (sessions (smtp w)) (environ w) recipient subject body ∧
    outbox (smtp w') = outbox (smtp w) ++
      [letter (environ w) recipient subject body] ∧
    sessions (smtp w') = S (sessions (smtp w)) ∧
    email_debug_log (out w') = email_debug_log (out w) ++
      ["SUCCESS: Sent to " +:+ recipient] ∧
    stdout (out w') = stdout (out w) ∧
    crash_debug_log (out w') = crash_debug_log (out w) ∧
    db w' = db w.
Proof.
  intros Hconf Hf.
  destruct (send_email_goes_through recipient subject body w Hconf Hf)
    as (w' & ? & ? & ? & ? & ? & ? & ? & ? & ? & ?).
  exists w'. by split_and!.
Qed.

Lemma send_email_delivers_message_witness :
  ∃ w', send_email "claimant@back2u.test" "subject" "body"
          (world_demo env_full healthy) = (Ok true, w') ∧
        outbox (smtp w') =
          [("noreply@back2u.test", "claimant@back2u.test",
            {| m_from := "noreply@back2u.test"; m_to := "claimant@back2u.test";
               m_subject := "subject"; m_body := "body" |})] ∧
        email_debug_log (out w') = ["SUCCESS: Sent to claimant@back2u.test"].
Proof.
  destruct (send_email_delivers_message "claimant@back2u.test" "subject" "body"
              (world_demo env_full healthy))
    as (w' & E & _ & O & _ & L & _); try reflexivity.
  exists w'. split; [exact E|]. split; [exact O | exact L].
Defined.

(** X2.  The result [False] does not mean that no mail left: when the
    transport accepts the message and [quit()] raises afterwards, the
    message is in the outbox, and still [send_email] returns [False],
    prints the error and logs an ERROR line. *)
Theorem send_email_quit_failure recipient subject body w e :
  configured w = true →
  (∀ hist c, faults w hist c =
             if fails_at (sessions (smtp w)) AtQuit c then Some e else None) →
  ∃ w', send_email recipient subject body w = (Ok false, w') ∧
    outbox (smtp w') = outbox (smtp w) ++
      [letter (environ w) recipient subject body] ∧
    email_debug_log (out w') = email_debug_log (out w) ++
      ["ERROR sending email to " +:+ recipient +:+ ": " +:+ e] ∧
    stdout (out w') = stdout (out w) ++
      ["ERROR sending email to " +:+ recipient +:+ ": " +:+ e].
Proof.
  intros Hconf Hf.
  unfold send_email, deliver, email_port, SMTP, starttls, login, sendmail, quit.
  unfold letter.
  unfold_monad. reduce.
  rewrite configured_forallb, Hconf. reduce.
  destruct (environ w !! "EMAIL_PORT"); sim_leaf Hf.
  all: eexists; (split; [reflexivity|]); by reduce.
Qed.

Lemma send_email_quit_failure_witness :
  ∃ w', send_email "claimant@back2u.test" "subject" "body"
          (world_demo env_full (breaks 0 AtQuit "Connection reset by peer"))
        = (Ok false, w') ∧
        length (outbox (smtp w')) = 1%nat ∧
        email_debug_log (out w') =
          ["ERROR sending email to claimant@back2u.test: Connection reset by peer"].
Proof.
  destruct (send_email_quit_failure "claimant@back2u.test" "subject" "body"
              (world_demo env_full (breaks 0 AtQuit "Connection reset by peer"))
              "Connection reset by peer")
    as (w' & E & O & L & _); try reflexivity.
  exists w'. split; [exact E|]. split; [rewrite O; reflexivity | exact L].
Defined.

(** X3.  The footprint of [send_email], in every world.  It returns a
    boolean; the calls it makes are calls of the mail sender only, none on
    the database, and none at all without a complete configuration; the
    database, the environment and [crash_debug.log] are left as they were;
    [email_debug.log] gains exactly one line when the configuration is
    complete and none otherwise; and when the result is [False], the line
    printed is the line logged. *)
Theorem send_email_footprint r s b w :
  ∃ ok w' new, send_email r s b w = (Ok ok, w') ∧
    history w' = history w ++ new ++ [EvSent r ok] ∧
    forallb is_mail_event new = true ∧
    (configured w = false → new = []) ∧
    db w' = db w ∧ environ w' = environ w ∧ faults w' = faults w ∧
    crash_debug_log (out w') = crash_debug_log (out w) ∧
    length (email_debug_log (out w')) =
      (length (email_debug_log (out w)) + if configured w then 1 else 0)%nat ∧
    (ok = false →
     ∃ line, stdout (out w') = stdout (out w) ++ [line] ∧
             email_debug_log (out w') = email_debug_log (out w) ++ [line]).
Proof.
  unfold send_email, deliver, email_port, SMTP, starttls, login, sendmail, quit.
  unfold_monad. reduce. rewrite configured_forallb.
  destruct (configured w); reduce.
  - destruct (environ w !! "EMAIL_PORT") as [p|]; split_faults.
    all: eexists _, _, _; (split; [reflexivity|]); reduce.
    all: split; [apply snoc_eq;
                 first [ symmetry; apply app_nil_r
                       | rewrite <- ?app_assoc; reflexivity ]|].
    all: split_and!; try done; try (rewrite length_app; reflexivity).
    all: intros _; eexists; split; reflexivity.
  - eexists _, _, []. split; [reflexivity|]. reduce.
    split_and!; done.
Qed.

(** X4.  With a complete configuration the result [True] is sound: no
    call raised, the transport has taken exactly this message, the SUCCESS
    line is logged and nothing was printed. *)
Theorem send_email_true_handed_over r s b w w' :
  configured w = true →
  send_email r s b w = (Ok true, w') →
  outbox (smtp w') = outbox (smtp w) ++ [letter (environ w) r s b] ∧
  email_debug_log (out w') = email_debug_log (out w) ++
    ["SUCCESS: Sent to " +:+ r] ∧
  stdout (out w') = stdout (out w) ∧
  ∃ new, history w' = history w ++ new ∧ raises new = [].
Proof.
  intros Hconf.
  unfold send_email, deliver, email_port, SMTP, starttls, login, sendmail, quit.
  unfold letter.
  unfold_monad. reduce. rewrite configured_forallb, Hconf. reduce.
  destruct (environ w !! "EMAIL_PORT") as [p|];
    split_faults; intros [= <-]; try discriminate.
  all: reduce; split_and!; try done.
  all: eexists; split; [rewrite <- ?app_assoc; reflexivity|done].
Qed.

Lemma send_email_true_handed_over_witness :
  length (outbox (smtp (snd (send_email "claimant@back2u.test" "subject" "body"
                               (world_demo env_full healthy))))) = 1%nat.
Proof.
  pose proof (send_email_true_handed_over "claimant@back2u.test" "subject" "body"
                (world_demo env_full healthy)
                (snd (send_email "claimant@back2u.test" "subject" "body"
                        (world_demo env_full healthy)))) as H.
  destruct H as (O & _); [reflexivity | reflexivity |].
  rewrite O. reflexivity.
Defined.

(** ** get_user_email, beyond the claims *)

(** X5.  On an open cursor of its caller, when the query and the fetch go
    through, [get_user_email] returns the first row of the result set for
    that id, prints nothing, issues exactly these two calls and leaves the
    cursor open with the rest of the result set. *)
Theorem get_user_email_first_match uid c cur w r rest :
  cursors (db w) !! c = Some cur →
  c_open cur = true →
  (∀ hist q, faults w hist (CExecute c q) = None) →
  (∀ hist, faults w hist (CFetchone c) = None) →
  user_rows uid (Users (db w)) = r :: rest →
  ∃ w', get_user_email uid (Some c) w = (Ok (Some r), w') ∧
    out w' = out w ∧
    history w' = history w ++
      [EvCall (CExecute c (SelectUser uid)) None; EvCall (CFetchone c) None] ∧
    cursors (db w') =
      <[c := {| c_open := true; c_rows := rest |}]> (cursors (db w)).
Proof.
  intros Hcur Hopen Hex Hfe Hrows.
  assert (c < length (cursors (db w)))%nat as Hlt by (by eapply lookup_lt_Some).
  unfold get_user_email, execute, fetchone. unfold_monad. reduce.
  rewrite Hex. reduce.
  rewrite (proj2 (open_cursor_lookup c (db w) cur)) by done. reduce.
  rewrite Hfe. reduce.
  match goal with
  | |- context [open_cursor ?h ?d] =>
      rewrite (proj2 (open_cursor_lookup h d
                 {| c_open := true; c_rows := user_rows uid (Users (db w)) |}))
        by (split; [by apply list_lookup_insert_eq|done])
  end.
  reduce. rewrite Hrows. reduce.
  eexists. split; [reflexivity|]. reduce. split_and!; try done.
  - by rewrite <- app_assoc.
  - by rewrite list_insert_insert_eq.
Qed.

Lemma get_user_email_first_match_witness :
  ∃ w', get_user_email 2 (Some 0%nat)
          (snd (get_cursor true (world_demo env_full healthy)))
        = (Ok (Some (RowUser "claimant@back2u.test" "Ravi")), w') ∧
        cursors (db w') = [{| c_open := true; c_rows := [] |}].
Proof.
  destruct (get_user_email_first_match 2 0
              {| c_open := true; c_rows := [] |}
              (snd (get_cursor true (world_demo env_full healthy)))
              (RowUser "claimant@back2u.test" "Ravi") [])
    as (w' & E & _ & _ & C); try reflexivity.
  exists w'. split; [exact E | exact C].
Defined.

(** X6.  Without a cursor of the caller, when the calls on the database go
    through, [get_user_email] acquires a dictionary cursor, queries,
    fetches the first row, closes the cursor and returns the row: four
    calls, nothing printed, and the new cursor is closed at the return. *)
Theorem get_user_email_own_cursor uid w r rest :
  (∀ hist c, is_mail c = false → faults w hist c = None) →
  user_rows uid (Users (db w)) = r :: rest →
  let h := length (cursors (db w)) in
  ∃ w', get_user_email uid None w = (Ok (Some r), w') ∧
    out w' = out w ∧
    history w' = history w ++
      [EvCall (CGetCursor h true) None;
       EvCall (CExecute h (SelectUser uid)) None;
       EvCall (CFetchone h) None;
       EvCall (CCursorClose h) None] ∧
    cursors (db w') = cursors (db w) ++ [closed].
Proof.
  intros Hf Hrows h. subst h.
  unfold get_user_email, get_cursor, execute, fetchone, cursor_close.
  unfold_monad.
  repeat (progress (norm_own; rewrite ?Hf, ?Hrows by reflexivity)).
  eexists. split; [reflexivity|]. norm_own. split_and!; try done.
  by rewrite <- !app_assoc.
Qed.

Lemma get_user_email_own_cursor_witness :
  ∃ w', get_user_email 1 None (world_demo env_full healthy)
        = (Ok (Some (RowUser "reporter@back2u.test" "Asha")), w') ∧
        cursors (db w') = [closed].
Proof.
  destruct (get_user_email_own_cursor 1 (world_demo env_full healthy)
              (RowUser "reporter@back2u.test" "Asha") [])
    as (w' & E & _ & _ & C); try reflexivity.
  exists w'. split; [exact E | exact C].
Defined.

(** X7.  A row handed back by [get_user_email] is sound, in every world and
    for either kind of cursor: it is the first row of the result set for
    that id, no call raised, and nothing was printed. *)
Theorem get_user_email_some uid cursor w r w' :
  get_user_email uid cursor w = (Ok (Some r), w') →
  head (user_rows uid (Users (db w))) = Some r ∧
  out w' = out w ∧
  ∃ new, history w' = history w ++ new ∧ raises new = [].
Proof.
  destruct cursor as [c|].
  - unfold get_user_email, execute, fetchone. unfold_monad. reduce.
    destruct (faults w (history w) (CExecute c (SelectUser uid))) eqn:F1; reduce;
      [intros [=]|].
    destruct (open_cursor c (db w)) as [c0|] eqn:Hoc; reduce; [|intros [=]].
    apply open_cursor_lookup in Hoc as [Hc0 Hopen].
    assert (c < length (cursors (db w)))%nat as Hlt by (by eapply lookup_lt_Some).
    match goal with
    | |- context [match faults ?w ?h ?c with _ => _ end] =>
        destruct (faults w h c) eqn:F2
    end; reduce; [intros [=]|].
    match goal with
    | |- context [open_cursor ?h ?d] =>
        rewrite (proj2 (open_cursor_lookup h d
                   {| c_open := true; c_rows := user_rows uid (Users (db w)) |}))
          by (split; [by apply list_lookup_insert_eq|done])
    end.
    reduce.
    destruct (user_rows uid (Users (db w))) as [|row rest] eqn:Hrows; reduce;
      intros [= <- <-]; reduce.
    split_and!; try done.
    eexists; split; [rewrite <- ?app_assoc; reflexivity|done].
  - unfold get_user_email, get_cursor, execute, fetchone, cursor_close.
    unfold_monad.
    repeat (norm_own;
            match goal with
            | |- context [match faults ?w ?h ?c with _ => _ end] =>
                destruct (faults w h c) eqn:?
            | |- context [match user_rows ?u ?us with _ => _ end] =>
                destruct (user_rows u us) as [|row rest] eqn:Hrows
            end).
    all: norm_own; intros [= <- <-]; norm_own.
    split_and!; try done.
    eexists; split; [rewrite <- ?app_assoc; reflexivity|done].
Qed.

Lemma get_user_email_some_witness :
  head (user_rows 2 (Users (db (world_demo env_full healthy))))
  = Some (RowUser "claimant@back2u.test" "Ravi").
Proof.
  exact (proj1 (get_user_email_some 2 None (world_demo env_full healthy)
                  (RowUser "claimant@back2u.test" "Ravi")
                  (snd (get_user_email 2 None (world_demo env_full healthy)))
                  eq_refl)).
Defined.

(** X8.  The [close()] of line 25 sits inside the [try]: when the lookup on
    an own cursor goes through and [close()] raises, the row that was
    fetched is dropped.  [get_user_email] prints the error of the close as
    an error of the fetch, tries [close()] once more in the handler,
    returns [None] whether or not the user exists, and leaves the cursor
    open. *)
Theorem get_user_email_close_failure uid w e :
  (∀ hist c, faults w hist c =
             match c with CCursorClose _ => Some e | _ => None end) →
  let h := length (cursors (db w)) in
  ∃ w', get_user_email uid None w = (Ok None, w') ∧
    history w' = history w ++
      [EvCall (CGetCursor h true) None;
       EvCall (CExecute h (SelectUser uid)) None;
       EvCall (CFetchone h) None;
       EvCall (CCursorClose h) (Some e);
       EvCall (CCursorClose h) (Some e)] ∧
    stdout (out w') = stdout (out w) ++
      ["Error fetching user " +:+ pretty uid +:+ ": " +:+ e] ∧
    ∃ c, cursors (db w') = cursors (db w) ++ [c] ∧ c_open c = true.
Proof.
  intros Hf h. subst h.
  unfold get_user_email, get_cursor, execute, fetchone, cursor_close.
  unfold_monad.
  repeat (progress (norm_own; rewrite ?Hf)).
  destruct (user_rows uid (Users (db w))) as [|row rest] eqn:Hrows.
  all: repeat (progress (norm_own; rewrite ?Hf)).
  all: eexists; (split; [reflexivity|]); norm_own; split_and!; try done.
  all: try (by rewrite <- !app_assoc).
  all: eexists; split; [reflexivity|done].
Qed.

Lemma get_user_email_close_failure_witness :
  ∃ w', get_user_email 1 None (world_demo env_full cursor_close_broken)
        = (Ok None, w') ∧
        stdout (out w') =
          ["Error fetching user 1: MySQL Connection not available."].
Proof.
  destruct (get_user_email_close_failure 1
              (world_demo env_full cursor_close_broken)
              "MySQL Connection not available.")
    as (w' & E & _ & O & _); try reflexivity.
  exists w'. split; [exact E | exact O].
Defined.

(** X9.  [get_user_email] only reads, in every world and for either kind
    of cursor, also when it raises: the tables, the rows waiting for a
    commit, the transport, the environment and the two log files are as
    before, and at most one line is printed. *)
Theorem get_user_email_read_only uid cursor w :
  let w' := snd (get_user_email uid cursor w) in
  environ w' = environ w ∧
  Users (db w') = Users (db w) ∧ Items (db w') = Items (db w) ∧
  Notifications (db w') = Notifications (db w) ∧
  uncommitted (db w') = uncommitted (db w) ∧
  smtp w' = smtp w ∧
  email_debug_log (out w') = email_debug_log (out w) ∧
  crash_debug_log (out w') = crash_debug_log (out w) ∧
  (stdout (out w') = stdout (out w) ∨
   ∃ line, stdout (out w') = stdout (out w) ++ [line]).
Proof.
  destruct cursor as [c|]; cbn zeta.
  - unfold get_user_email, execute, fetchone. unfold_monad. reduce.
    destruct (faults w (history w) (CExecute c (SelectUser uid))) eqn:F1; reduce;
      [split_and!; eauto|].
    destruct (open_cursor c (db w)) as [c0|] eqn:Hoc; reduce;
      [|split_and!; eauto].
    apply open_cursor_lookup in Hoc as [Hc0 Hopen].
    assert (c < length (cursors (db w)))%nat as Hlt by (by eapply lookup_lt_Some).
    match goal with
    | |- context [match faults ?w ?h ?c with _ => _ end] =>
        destruct (faults w h c) eqn:F2
    end; reduce; [split_and!; eauto|].
    match goal with
    | |- context [open_cursor ?h ?d] =>
        rewrite (proj2 (open_cursor_lookup h d
                   {| c_open := true; c_rows := user_rows uid (Users (db w)) |}))
          by (split; [by apply list_lookup_insert_eq|done])
    end.
    reduce.
    destruct (user_rows uid (Users (db w))) as [|row rest] eqn:Hrows; reduce;
      split_and!; eauto.
  - unfold get_user_email, get_cursor, execute, fetchone, cursor_close.
    unfold_monad.
    repeat (norm_own;
            match goal with
            | |- context [match faults ?w ?h ?c with _ => _ end] =>
                destruct (faults w h c) eqn:?
            | |- context [match user_rows ?u ?us with _ => _ end] =>
                destruct (user_rows u us) as [|row rest] eqn:Hrows
            end).
    all: norm_own; split_and!; eauto.
Qed.

(** ** insert_notification, beyond the claims *)

(** X10.  The cursor of [insert_notification], in every world.  When the
    function returns, the cursor it acquired is closed.  When it raises
    after the acquisition (at the INSERT, at the commit or at the close),
    the cursor is left open: there is no handler that would close it. *)
Theorem insert_notification_cursor_fate uid message ty w :
  let h := length (cursors (db w)) in
  match insert_notification uid message ty w with
  | (Ok _, w') => cursors (db w') = cursors (db w) ++ [closed]
  | (Raise e, w') =>
      match faults w (history w) (CGetCursor h false) with
      | Some _ => cursors (db w') = cursors (db w)
      | None =>
          cursors (db w') =
            cursors (db w) ++ [{| c_open := true; c_rows := [] |}]
      end
  end.
Proof.
  unfold insert_notification, get_cursor, execute, commit, cursor_close.
  unfold_monad. split_calls; done.
Qed.

(** X11.  An exception of [insert_notification] does not mean that the
    row is missing: when only the final [close()] raises, the function
    raises to its caller after the row was inserted and committed. *)
Theorem insert_notification_close_failure uid message ty w e :
  (∀ hist c, faults w hist c =
             match c with CCursorClose _ => Some e | _ => None end) →
  ∃ w', insert_notification uid message ty w = (Raise e, w') ∧
    Notifications (db w') =
      Notifications (db w) ++ uncommitted (db w) ++
      [{| n_user_id := uid; n_message := message; n_type := ty;
          n_status := Notification_STATUSES "SENT" |}] ∧
    out w' = out w.
Proof.
  intros Hf.
  unfold insert_notification, get_cursor, execute, commit, cursor_close.
  unfold_monad.
  repeat (progress (norm_own; rewrite ?Hf)).
  eexists. split; [reflexivity|]. norm_own. by split.
Qed.

Lemma insert_notification_close_failure_witness :
  ∃ w', insert_notification 1 reporter_message (Notification_TYPES "EMAIL")
          (world_demo env_full cursor_close_broken)
        = (Raise "MySQL Connection not available.", w') ∧
        Notifications (db w') = [email_row 1 reporter_message].
Proof.
  destruct (insert_notification_close_failure 1 reporter_message
              (Notification_TYPES "EMAIL")
              (world_demo env_full cursor_close_broken)
              "MySQL Connection not available.")
    as (w' & E & N & _); try reflexivity.
  exists w'. split; [exact E | exact N].
Defined.

(** ** send_claim_resolved_emails, beyond the claims *)

Lemma item_rows_cons i its r rest :
  item_rows i its = r :: rest →
  ∃ it, it ∈ its ∧ item_id it = i ∧ r = RowItem (reported_by it) (title it).
Proof.
  unfold item_rows. intros H.
  apply fmap_cons_inv in H as (it & l' & -> & _ & Hf).
  assert (it ∈ filter (λ r, item_id r = i) its) as Hin
    by (rewrite Hf; left).
  apply list_elem_of_filter in Hin as [? ?]. eauto.
Qed.

Lemma item_lookup h i w u w1 r w2 :
  execute h (SelectItem i) w = (Ok u, w1) →
  fetchone h w1 = (Ok (Some r), w2) →
  ∃ it, it ∈ Items (db w) ∧ item_id it = i ∧
        r = RowItem (reported_by it) (title it).
Proof.
  unfold execute, fetchone. unfold_monad. reduce.
  destruct (faults w (history w) _); reduce; [intros [=]|].
  destruct (open_cursor h (db w)) as [c0|] eqn:Hoc; reduce; [|intros [=]].
  apply open_cursor_lookup in Hoc as [Hc0 _].
  assert (h < length (cursors (db w)))%nat as Hlt by (by eapply lookup_lt_Some).
  intros [= _ <-]. reduce.
  match goal with
  | |- context [match faults ?w ?h ?c with _ => _ end] =>
      destruct (faults w h c)
  end; reduce; [intros [=]|].
  match goal with
  | |- context [open_cursor ?h ?d] =>
      rewrite (proj2 (open_cursor_lookup h d
                 {| c_open := true; c_rows := item_rows i (Items (db w)) |}))
        by (split; [by apply list_lookup_insert_eq|done])
  end.
  reduce.
  destruct (item_rows i (Items (db w))) as [|row rest] eqn:Hrows; reduce;
    intros [= <- _].
  by apply item_rows_cons in Hrows.
Qed.

Ltac step_eq E :=
  match goal with
  | |- context [match ?m ?W with _ => _ end] =>
      lazymatch type of W with World => idtac end;
      let T := fresh "T" in
      lazymatch m with
      | execute ?h (SelectItem ?i) =>
          pose proof (execute_select_item_trans h i W) as T
      | fetchone ?h => pose proof (fetchone_trans h W) as T
      end;
      let x := fresh "x" in
      let e := fresh "e" in
      let w' := fresh "w" in
      destruct (m W) as [[x|e] w'] eqn:E; cbn [fst snd] in T; absorb T; reduce
  end.

Ltac solve_group :=
  unfold group;
  first [ left; reflexivity
        | right; left; reflexivity
        | right; right; reflexivity ].

Ltac solve_shape :=
  first
    [ left; reflexivity
    | match goal with
      | Hit : ?it ∈ _, H1 : ?u1 ∈ _, H2 : ?u2 ∈ _
        |- run_shape _ _ _ _ ?ss =>
          lazymatch type of it with ItemRow => idtac end;
          lazymatch type of u1 with UserRow => idtac end;
          lazymatch type of u2 with UserRow => idtac end;
          right;
          lazymatch ss with
          | Sent ?r false :: ?rest =>
              exists it, u1, u2, [Sent r false], rest
          | Sent ?r true :: Acquire false :: ?rest =>
              exists it, u1, u2, [Sent r true; Acquire false], rest
          | Sent ?r true :: Acquire true :: Insert ?row :: ?rest =>
              exists it, u1, u2, [Sent r true; Acquire true; Insert row], rest
          end;
          split_and!; [exact Hit|done|exact H1|done|exact H2|done
                      |solve_group|solve_group|reflexivity]
      end ].

Ltac conclude_shape :=
  eexists _, _, _, _; split; [reflexivity|];
  split; [repeat apply trans_set_out; eassumption | solve_shape].

(** The steps of the guarded suite, in every world. *)
Lemma workflow_shape i c a w :
  ∃ r w' ss rows, workflow i c a w = (r, w') ∧
    trans w w' ss rows ∧
    run_shape (Items (db w)) (Users (db w)) i c ss.
Proof.
  pose proof (trans_refl w) as Acc.
  unfold workflow. unfold_monad. reduce.
  step; [|conclude_shape].
  pose proof (t_items _ _ _ _ Acc) as HI. reduce.
  step_eq Ex; [|conclude_shape].
  step_eq Ef; [|conclude_shape].
  destruct x1 as [row|]; reduce.
  2: { step; conclude_shape. }
  destruct (item_lookup _ _ _ _ _ _ _ Ex Ef) as (it & Hit & Hid & ->).
  reduce. rewrite HI in Hit. clear Ex Ef HI.
  step_lookup.
  all: step_lookup.
  all: (step; [|conclude_shape]).
  all: try conclude_shape.
  step_send.
  all: repeat (step; [|try step_send]).
  all: try step_send.
  all: repeat step.
  all: conclude_shape.
Qed.

(** X12.  The shape of a run, in every world.  Either no mail is sent and
    nothing is inserted, or the run deals with the reporter of an item
    with the given id and then with the claimant, in this order and each
    exactly once: a send to the address of that user, followed, if and only
    if the send returned [True], by the attempt to insert the row of that
    user with the fixed message of its role.  The last call is
    [db.close()]. *)
Theorem send_claim_resolved_emails_shape i c a w :
  ∃ r wf new,
    send_claim_resolved_emails i c a w = (r, wf) ∧
    history wf = history w ++ new ++ [EvCall CDbClose (raised r)] ∧
    run_shape (Items (db w)) (Users (db w)) i c (steps new).
Proof.
  unfold send_claim_resolved_emails. unfold_monad. reduce.
  match goal with
  | |- context [workflow ?i ?c ?a ?W] =>
      destruct (workflow_shape i c a W) as (r1 & w1 & ss & rows & E & T & P);
      rewrite E
  end.
  reduce.
  destruct T as [_ _ _ _ (new & Hh & <- & _) _ _].
  destruct r1 as [[]|e]; reduce.
  all: match goal with
       | |- context [faults ?W ?h CDbClose] => destruct (faults W h CDbClose)
       end; reduce.
  all: eexists _, _, new; (split; [reflexivity|]); reduce.
  all: by rewrite Hh, <- app_assoc.
Qed.

(** X13.  Both parties or none.  When every item with the given id lacks
    its reporter among the users, or the claimant is not among them (in
    particular when there is no such item), the run sends no mail and
    inserts nothing, whatever the collaborators do. *)
Theorem send_claim_resolved_emails_skips i c a w :
  (∀ it, it ∈ Items (db w) → item_id it = i →
     (∀ u, u ∈ Users (db w) → user_id u ≠ reported_by it) ∨
     (∀ u, u ∈ Users (db w) → user_id u ≠ c)) →
  ∃ r wf new,
    send_claim_resolved_emails i c a w = (r, wf) ∧
    history wf = history w ++ new ++ [EvCall CDbClose (raised r)] ∧
    steps new = [].
Proof.
  intros Hmiss.
  unfold send_claim_resolved_emails. unfold_monad. reduce.
  match goal with
  | |- context [workflow ?i ?c ?a ?W] =>
      destruct (workflow_shape i c a W) as (r1 & w1 & ss & rows & E & T & P);
      rewrite E
  end.
  reduce.
  destruct T as [_ _ _ _ (new & Hh & <- & _) _ _].
  assert (steps new = []) as Hnone.
  { destruct P as [P|(it & u1 & u2 & g1 & g2 & Hit & Hid & H1 & E1 & H2 & E2 & _)];
      [done|].
    destruct (Hmiss it Hit Hid) as [Hno|Hno];
      [destruct (Hno u1 H1 E1) | destruct (Hno u2 H2 E2)]. }
  destruct r1 as [[]|e]; reduce.
  all: match goal with
       | |- context [faults ?W ?h CDbClose] => destruct (faults W h CDbClose)
       end; reduce.
  all: eexists _, _, new; (split; [reflexivity|]); reduce.
  all: by rewrite Hh, <- app_assoc.
Qed.

Lemma send_claim_resolved_emails_skips_witness :
  ∃ r wf new,
    send_claim_resolved_emails 42 3 9 (world_demo env_full healthy) = (r, wf) ∧
    history wf = new ++ [EvCall CDbClose (raised r)] ∧
    steps new = [].
Proof.
  destruct (send_claim_resolved_emails_skips 42 3 9
              (world_demo env_full healthy))
    as (r & wf & new & E & H & S).
  - intros it _ _. right. intros u Hu Hid.
    repeat (apply elem_of_cons in Hu as [->|Hu]; [discriminate Hid|]).
    by apply elem_of_nil in Hu.
  - exists r, wf, new. split; [exact E|]. split; [exact H | exact S].
Defined.

(** The insert suite when every call on the database goes through, and when
    the INSERT raises. *)
Lemma notify_insert_goes_through who uid message W :
  (∀ hist c, is_mail c = false → faults W hist c = None) →
  ∃ W', notify_insert who uid message W = (Ok tt, W') ∧
    environ W' = environ W ∧ faults W' = faults W ∧ smtp W' = smtp W ∧
    Notifications (db W') =
      Notifications (db W) ++ uncommitted (db W) ++ [email_row uid message] ∧
    uncommitted (db W') = [] ∧
    cursors (db W') = cursors (db W) ++ [closed] ∧
    stdout (out W') = stdout (out W) ∧
    email_debug_log (out W') = email_debug_log (out W) ∧
    crash_debug_log (out W') = crash_debug_log (out W) ++
      ["Inserting notification for " +:+ who +:+ "...";
       "Notification inserted."] ∧
    history W' = history W ++
      insertion (length (cursors (db W))) (email_row uid message).
Proof.
  intros Hf.
  unfold notify_insert, get_cursor, execute, commit, cursor_close, email_row.
  unfold_monad.
  repeat (progress (norm_own; rewrite ?Hf by reflexivity)).
  eexists; split; [reflexivity|]; norm_own; split_and!; try done.
  all: by rewrite <- !app_assoc.
Qed.

Lemma notify_insert_fails who uid message W e :
  (∀ hist c, faults W hist c = if is_insert c then Some e else None) →
  ∃ W', notify_insert who uid message W = (Ok tt, W') ∧
    environ W' = environ W ∧ faults W' = faults W ∧ smtp W' = smtp W ∧
    Notifications (db W') = Notifications (db W) ∧
    uncommitted (db W') = uncommitted (db W) ∧
    cursors (db W') =
      cursors (db W) ++ [{| c_open := true; c_rows := [] |}] ∧
    stdout (out W') = stdout (out W) ++
      ["Error inserting notification: " +:+ e] ∧
    email_debug_log (out W') = email_debug_log (out W) ∧
    crash_debug_log (out W') = crash_debug_log (out W) ++
      ["Inserting notification for " +:+ who +:+ "...";
       "Error inserting notification: " +:+ e] ∧
    history W' = history W ++
      [EvCall (CGetCursor (length (cursors (db W))) false) None;
       EvCall (CExecute (length (cursors (db W)))
                 (InsertNotification (email_row uid message))) (Some e)].
Proof.
  intros Hf.
  unfold notify_insert, get_cursor, execute, commit, cursor_close, email_row.
  unfold_monad.
  repeat (progress (norm_own; rewrite ?Hf)).
  eexists; split; [reflexivity|]; norm_own; split_and!; try done.
  all: by rewrite <- !app_assoc.
Qed.

Ltac ostep_by w tac :=
  settle_handles w;
  match goal with
  | |- context [call ?c ?run ?W] =>
      rewrite (call_ok c run W) by tac;
      crunch; try cursor_is_open; crunch
  end.

Ltac db_oracle Hf := flatten; rewrite Hf by reflexivity; reflexivity.

Lemma missing_keys_env W W' :
  environ W' = environ W → missing_keys W' = missing_keys W.
Proof. unfold missing_keys. by intros ->. Qed.

(** X14.  The run in which everything works: item and users exist, the
    configuration is complete and no call raises.  The calls are exactly
    the read phase on one cursor, the session for the reporter, the insert
    for the reporter on a cursor of its own, the session for the claimant,
    the insert for the claimant, and [db.close()], in this order.  The
    reporter's mail names the claimant but not the claimant's address; the
    claimant's mail carries the name and the address of the reporter.  Two
    rows are committed, two SUCCESS lines logged, nothing is printed, the
    three cursors are closed and so is the connection. *)
Theorem send_claim_resolved_emails_healthy i cid a w rid title irest re rn rrest ce cn crest :
  item_rows i (Items (db w)) = RowItem rid title :: irest →
  user_rows rid (Users (db w)) = RowUser re rn :: rrest →
  user_rows cid (Users (db w)) = RowUser ce cn :: crest →
  configured w = true →
  (∀ hist c, faults w hist c = None) →
  let h := length (cursors (db w)) in
  let s := sessions (smtp w) in
  ∃ wf,
    send_claim_resolved_emails i cid a w = (Ok tt, wf) ∧
    history wf = history w ++
      lookups h i rid cid ++
      session s (environ w) re (reporter_subject title)
        (reporter_body rn title a cn) ++
      insertion (S h) (email_row rid reporter_message) ++
      session (S s) (environ w) ce (claimant_subject title)
        (claimant_body cn title rn re) ++
      insertion (S (S h)) (email_row cid claimant_message) ++
      [EvCall CDbClose None] ∧
    Notifications (db wf) =
      Notifications (db w) ++ uncommitted (db w) ++
      [email_row rid reporter_message; email_row cid claimant_message] ∧
    outbox (smtp wf) = outbox (smtp w) ++
      [letter (environ w) re (reporter_subject title)
         (reporter_body rn title a cn);
       letter (environ w) ce (claimant_subject title)
         (claimant_body cn title rn re)] ∧
    email_debug_log (out wf) = email_debug_log (out w) ++
      ["SUCCESS: Sent to " +:+ re; "SUCCESS: Sent to " +:+ ce] ∧
    stdout (out wf) = stdout (out w) ∧
    crash_debug_log (out wf) = crash_debug_log (out w) ++
      ["Starting send_claim_resolved_emails for Item " +:+ pretty i;
       "Getting cursor from thread-local db...";
       "Fetching item info...";
       "Fetching reporter " +:+ pretty rid +:+ "...";
       "Fetching claimant " +:+ pretty cid +:+ "...";
       "Closing cursor...";
       "Sending email to reporter...";
       "Inserting notification for reporter...";
       "Notification inserted.";
       "Sending email to claimant...";
       "Inserting notification for claimant...";
       "Notification inserted."] ∧
    cursors (db wf) = cursors (db w) ++ [closed; closed; closed] ∧
    connected (db wf) = false.
Proof.
  intros Hitem Hrep Hcl Hconf Hf h s. subst h s.
  unfold send_claim_resolved_emails. rewrite workflow_unfold.
  unfold get_user_email, get_cursor, execute, fetchone, cursor_close,
    row_reported_by, row_title, row_name, row_email.
  unfold print, log_debug, bind, try_except, try_finally, ret, raise.
  crunch.
  repeat first
    [ ostep w Hf
    | progress (rewrite ?Hitem, ?Hrep, ?Hcl); crunch ].
  match goal with
  | |- context [send_email ?r ?s ?b ?W] =>
      destruct (send_email_goes_through r s b W)
        as (W1 & E1 & D1 & V1 & F1 & S1 & B1 & O1 & L1 & C1 & H1);
        [ rewrite <- Hconf; by apply configured_env
        | intros hist c _; apply Hf |];
      rewrite E1; clear E1; crunch
  end.
  flatten_in D1; flatten_in V1; flatten_in F1; flatten_in S1; flatten_in B1;
    flatten_in O1; flatten_in L1; flatten_in C1; flatten_in H1.
  match goal with
  | |- context [notify_insert ?who ?u ?m ?W] =>
      destruct (notify_insert_goes_through who u m W)
        as (W2 & E2 & V2 & F2 & M2 & N2 & U2 & K2 & O2 & L2 & C2 & H2);
        [ intros hist c _; flatten; rewrite F1; apply Hf |];
      rewrite E2; clear E2; crunch
  end.
  flatten_in V2; flatten_in F2; flatten_in M2; flatten_in N2; flatten_in U2;
    flatten_in K2; flatten_in O2; flatten_in L2; flatten_in C2; flatten_in H2.
  match goal with
  | |- context [send_email ?r ?s ?b ?W] =>
      destruct (send_email_goes_through r s b W)
        as (W3 & E3 & D3 & V3 & F3 & S3 & B3 & O3 & L3 & C3 & H3);
        [ rewrite <- Hconf; apply configured_env; flatten;
          by rewrite V2, V1
        | intros hist c _; flatten; rewrite F2, F1; apply Hf |];
      rewrite E3; clear E3; crunch
  end.
  flatten_in D3; flatten_in V3; flatten_in F3; flatten_in S3; flatten_in B3;
    flatten_in O3; flatten_in L3; flatten_in C3; flatten_in H3.
  match goal with
  | |- context [notify_insert ?who ?u ?m ?W] =>
      destruct (notify_insert_goes_through who u m W)
        as (W4 & E4 & V4 & F4 & M4 & N4 & U4 & K4 & O4 & L4 & C4 & H4);
        [ intros hist c _; flatten; rewrite F3, F2, F1; apply Hf |];
      rewrite E4; clear E4; crunch
  end.
  flatten_in V4; flatten_in F4; flatten_in M4; flatten_in N4; flatten_in U4;
    flatten_in K4; flatten_in O4; flatten_in L4; flatten_in C4; flatten_in H4.
  unfold db_close.
  rewrite call_ok by (rewrite F4, F3, F2, F1, Hf; reflexivity).
  crunch.
  eexists. split; [reflexivity|]. flatten.
  assert (cursors (db W1) = cursors (db w) ++ [closed]) as K1
    by (rewrite D1; cbn [set_cursors cursors];
        rewrite !list_insert_insert_eq; apply insert_fresh).
  assert (Notifications (db W1) = Notifications (db w)) as N1
    by (by rewrite D1).
  assert (uncommitted (db W1) = uncommitted (db w)) as U1
    by (by rewrite D1).
  clear D1.
  rewrite ?K4, ?N4, ?H4, ?M4, ?O4, ?L4, ?C4.
  rewrite ?B3, ?S3, ?D3, ?H3, ?O3, ?L3, ?C3, ?V3.
  rewrite ?K2, ?N2, ?U2, ?H2, ?M2, ?O2, ?L2, ?C2, ?V2.
  rewrite ?K1, ?N1, ?U1, ?H1, ?B1, ?S1, ?O1, ?L1, ?C1, ?V1.
  rewrite !length_app. cbn [length]. rewrite !Nat.add_1_r.
  unfold lookups.
  split_and!; rewrite <- ?app_assoc; try reflexivity.
Qed.

Lemma send_claim_resolved_emails_healthy_witness :
  ∃ wf,
    send_claim_resolved_emails 42 2 9 (world_demo env_full healthy)
    = (Ok tt, wf) ∧
    Notifications (db wf) =
      [email_row 1 reporter_message; email_row 2 claimant_message] ∧
    email_debug_log (out wf) =
      ["SUCCESS: Sent to reporter@back2u.test";
       "SUCCESS: Sent to claimant@back2u.test"] ∧
    stdout (out wf) = [].
Proof.
  destruct (send_claim_resolved_emails_healthy 42 2 9
              (world_demo env_full healthy)
              1 "Blue Backpack" [] "reporter@back2u.test" "Asha" []
              "claimant@back2u.test" "Ravi" [])
    as (wf & E & _ & N & _ & L & O & _); try reflexivity.
  exists wf. split; [exact E|]. split; [exact N|]. split; [exact L | exact O].
Defined.

(** X15.  A failing INSERT stops nothing.  Item and users exist, the
    configuration is complete, every INSERT raises [e] and every other
    call goes through.  Then both mails are still sent, in order; each
    INSERT is attempted once and caught; the error is printed and traced
    twice; no row is committed; the run returns normally; and the two
    cursors of the inserts are left open. *)
Theorem send_claim_resolved_emails_insert_failure i cid a w rid title irest re rn rrest ce cn crest e :
  item_rows i (Items (db w)) = RowItem rid title :: irest →
  user_rows rid (Users (db w)) = RowUser re rn :: rrest →
  user_rows cid (Users (db w)) = RowUser ce cn :: crest →
  configured w = true →
  (∀ hist c, faults w hist c = if is_insert c then Some e else None) →
  ∃ wf new,
    send_claim_resolved_emails i cid a w = (Ok tt, wf) ∧
    history wf = history w ++ new ∧
    steps new =
      [Sent re true; Acquire true; Insert (email_row rid reporter_message);
       Sent ce true; Acquire true; Insert (email_row cid claimant_message)] ∧
    staged new = [] ∧
    Notifications (db wf) = Notifications (db w) ∧
    outbox (smtp wf) = outbox (smtp w) ++
      [letter (environ w) re (reporter_subject title)
         (reporter_body rn title a cn);
       letter (environ w) ce (claimant_subject title)
         (claimant_body cn title rn re)] ∧
    email_debug_log (out wf) = email_debug_log (out w) ++
      ["SUCCESS: Sent to " +:+ re; "SUCCESS: Sent to " +:+ ce] ∧
    stdout (out wf) = stdout (out w) ++
      ["Error inserting notification: " +:+ e;
       "Error inserting notification: " +:+ e] ∧
    crash_debug_log (out wf) = crash_debug_log (out w) ++
      ["Starting send_claim_resolved_emails for Item " +:+ pretty i;
       "Getting cursor from thread-local db...";
       "Fetching item info...";
       "Fetching reporter " +:+ pretty rid +:+ "...";
       "Fetching claimant " +:+ pretty cid +:+ "...";
       "Closing cursor...";
       "Sending email to reporter...";
       "Inserting notification for reporter...";
       "Error inserting notification: " +:+ e;
       "Sending email to claimant...";
       "Inserting notification for claimant...";
       "Error inserting notification: " +:+ e] ∧
    cursors (db wf) = cursors (db w) ++
      [closed; {| c_open := true; c_rows := [] |};
       {| c_open := true; c_rows := [] |}].
Proof.
  intros Hitem Hrep Hcl Hconf Hf.
  unfold send_claim_resolved_emails. rewrite workflow_unfold.
  unfold get_user_email, get_cursor, execute, fetchone, cursor_close,
    row_reported_by, row_title, row_name, row_email.
  unfold print, log_debug, bind, try_except, try_finally, ret, raise.
  crunch.
  repeat first
    [ ostep w Hf
    | progress (rewrite ?Hitem, ?Hrep, ?Hcl); crunch ].
  match goal with
  | |- context [send_email ?r ?s ?b ?W] =>
      destruct (send_email_goes_through r s b W)
        as (W1 & E1 & D1 & V1 & F1 & S1 & B1 & O1 & L1 & C1 & H1);
        [ rewrite <- Hconf; by apply configured_env
        | intros hist c Hc; flatten; rewrite Hf;
          by destruct c as [| ? []| | | | | | | | | | |] |];
      rewrite E1; clear E1; crunch
  end.
  flatten_in D1; flatten_in V1; flatten_in F1; flatten_in S1; flatten_in B1;
    flatten_in O1; flatten_in L1; flatten_in C1; flatten_in H1.
  match goal with
  | |- context [notify_insert ?who ?u ?m ?W] =>
      destruct (notify_insert_fails who u m W e)
        as (W2 & E2 & V2 & F2 & M2 & N2 & U2 & K2 & O2 & L2 & C2 & H2);
        [ intros hist c; flatten; rewrite F1; apply Hf |];
      rewrite E2; clear E2; crunch
  end.
  flatten_in V2; flatten_in F2; flatten_in M2; flatten_in N2; flatten_in U2;
    flatten_in K2; flatten_in O2; flatten_in L2; flatten_in C2; flatten_in H2.
  match goal with
  | |- context [send_email ?r ?s ?b ?W] =>
      destruct (send_email_goes_through r s b W)
        as (W3 & E3 & D3 & V3 & F3 & S3 & B3 & O3 & L3 & C3 & H3);
        [ rewrite <- Hconf; apply configured_env; flatten;
          by rewrite V2, V1
        | intros hist c Hc; flatten; rewrite F2, F1, Hf;
          by destruct c as [| ? []| | | | | | | | | | |] |];
      rewrite E3; clear E3; crunch
  end.
  flatten_in D3; flatten_in V3; flatten_in F3; flatten_in S3; flatten_in B3;
    flatten_in O3; flatten_in L3; flatten_in C3; flatten_in H3.
  match goal with
  | |- context [notify_insert ?who ?u ?m ?W] =>
      destruct (notify_insert_fails who u m W e)
        as (W4 & E4 & V4 & F4 & M4 & N4 & U4 & K4 & O4 & L4 & C4 & H4);
        [ intros hist c; flatten; rewrite F3, F2, F1; apply Hf |];
      rewrite E4; clear E4; crunch
  end.
  flatten_in V4; flatten_in F4; flatten_in M4; flatten_in N4; flatten_in U4;
    flatten_in K4; flatten_in O4; flatten_in L4; flatten_in C4; flatten_in H4.
  unfold db_close.
  rewrite call_ok by (rewrite F4, F3, F2, F1, Hf; reflexivity).
  crunch.
  eexists _, _. split; [reflexivity|]. flatten.
  assert (cursors (db W1) = cursors (db w) ++ [closed]) as K1
    by (rewrite D1; cbn [set_cursors cursors];
        rewrite !list_insert_insert_eq; apply insert_fresh).
  assert (Notifications (db W1) = Notifications (db w)) as N1
    by (by rewrite D1).
  clear D1.
  rewrite ?K4, ?N4, ?H4, ?M4, ?O4, ?L4, ?C4.
  rewrite ?B3, ?S3, ?D3, ?H3, ?O3, ?L3, ?C3, ?V3.
  rewrite ?K2, ?N2, ?H2, ?M2, ?O2, ?L2, ?C2, ?V2.
  rewrite ?K1, ?N1, ?H1, ?B1, ?S1, ?O1, ?L1, ?C1, ?V1.
  split; [rewrite <- !app_assoc; reflexivity|].
  unfold steps, staged, session. rewrite !omap_app.
  destruct (environ w !! "EMAIL_PORT").
  all: split_and!; rewrite <- ?app_assoc; try reflexivity.
Qed.

Lemma send_claim_resolved_emails_insert_failure_witness :
  ∃ wf,
    send_claim_resolved_emails 42 2 9 (world_demo env_full insert_broken)
    = (Ok tt, wf) ∧
    Notifications (db wf) = [] ∧
    email_debug_log (out wf) =
      ["SUCCESS: Sent to reporter@back2u.test";
       "SUCCESS: Sent to claimant@back2u.test"] ∧
    stdout (out wf) =
      ["Error inserting notification: Lock wait timeout exceeded";
       "Error inserting notification: Lock wait timeout exceeded"].
Proof.
  destruct (send_claim_resolved_emails_insert_failure 42 2 9
              (world_demo env_full insert_broken)
              1 "Blue Backpack" [] "reporter@back2u.test" "Asha" []
              "claimant@back2u.test" "Ravi" [] "Lock wait timeout exceeded")
    as (wf & new & E & _ & _ & _ & N & _ & L & O & _); try reflexivity.
  - intros hist c. by destruct c as [| ? []| | | | | | | | | | |].
  - exists wf. split; [exact E|]. split; [exact N|].
    split; [exact L | exact O].
Defined.

(** X16.  Without a complete mail configuration the run records mails that
    were never sent.  Item and users exist and the calls on the database
    go through.  Then the transport is not touched and [email_debug.log]
    gains nothing, the four diagnostics of the two skipped sends are
    printed, and yet both Notification rows are inserted with status SENT
    and committed, because [send_email] hands back [True]. *)
Theorem send_claim_resolved_emails_unconfigured i cid a w rid title irest re rn rrest ce cn crest :
  item_rows i (Items (db w)) = RowItem rid title :: irest →
  user_rows rid (Users (db w)) = RowUser re rn :: rrest →
  user_rows cid (Users (db w)) = RowUser ce cn :: crest →
  configured w = false →
  (∀ hist c, is_mail c = false → faults w hist c = None) →
  let h := length (cursors (db w)) in
  ∃ wf,
    send_claim_resolved_emails i cid a w = (Ok tt, wf) ∧
    history wf = history w ++
      lookups h i rid cid ++
      [EvSent re true] ++
      insertion (S h) (email_row rid reporter_message) ++
      [EvSent ce true] ++
      insertion (S (S h)) (email_row cid claimant_message) ++
      [EvCall CDbClose None] ∧
    smtp wf = smtp w ∧
    email_debug_log (out wf) = email_debug_log (out w) ∧
    Notifications (db wf) =
      Notifications (db w) ++ uncommitted (db w) ++
      [email_row rid reporter_message; email_row cid claimant_message] ∧
    stdout (out wf) = stdout (out w) ++
      ["Email credentials not configured. Missing: " +:+
         join ", " (missing_keys w);
       "Would have sent to " +:+ re +:+ ": " +:+ reporter_subject title;
       "Email credentials not configured. Missing: " +:+
         join ", " (missing_keys w);
       "Would have sent to " +:+ ce +:+ ": " +:+ claimant_subject title].
Proof.
  intros Hitem Hrep Hcl Hconf Hf h. subst h.
  unfold send_claim_resolved_emails. rewrite workflow_unfold.
  unfold get_user_email, get_cursor, execute, fetchone, cursor_close,
    row_reported_by, row_title, row_name, row_email.
  unfold print, log_debug, bind, try_except, try_finally, ret, raise.
  crunch.
  repeat first
    [ ostep_by w ltac:(db_oracle Hf)
    | progress (rewrite ?Hitem, ?Hrep, ?Hcl); crunch ].
  match goal with
  | |- context [send_email ?r ?s ?b ?W] =>
      destruct (send_email_dry r s b W)
        as (W1 & E1 & D1 & V1 & F1 & M1 & O1 & L1 & C1 & H1);
        [ rewrite <- Hconf; by apply configured_env |];
      rewrite E1; clear E1; crunch
  end.
  flatten_in D1; flatten_in V1; flatten_in F1; flatten_in M1;
    flatten_in O1; flatten_in L1; flatten_in C1; flatten_in H1.
  rewrite (missing_keys_env w) in O1 by reflexivity.
  match goal with
  | |- context [notify_insert ?who ?u ?m ?W] =>
      destruct (notify_insert_goes_through who u m W)
        as (W2 & E2 & V2 & F2 & M2 & N2 & U2 & K2 & O2 & L2 & C2 & H2);
        [ intros hist c Hc; flatten; rewrite F1; by apply Hf |];
      rewrite E2; clear E2; crunch
  end.
  flatten_in V2; flatten_in F2; flatten_in M2; flatten_in N2; flatten_in U2;
    flatten_in K2; flatten_in O2; flatten_in L2; flatten_in C2; flatten_in H2.
  match goal with
  | |- context [send_email ?r ?s ?b ?W] =>
      destruct (send_email_dry r s b W)
        as (W3 & E3 & D3 & V3 & F3 & M3 & O3 & L3 & C3 & H3);
        [ rewrite <- Hconf; apply configured_env; flatten;
          by rewrite V2, V1 |];
      rewrite E3; clear E3; crunch
  end.
  flatten_in D3; flatten_in V3; flatten_in F3; flatten_in M3;
    flatten_in O3; flatten_in L3; flatten_in C3; flatten_in H3.
  rewrite (missing_keys_env w) in O3 by (flatten; by rewrite V2, V1).
  match goal with
  | |- context [notify_insert ?who ?u ?m ?W] =>
      destruct (notify_insert_goes_through who u m W)
        as (W4 & E4 & V4 & F4 & M4 & N4 & U4 & K4 & O4 & L4 & C4 & H4);
        [ intros hist c Hc; flatten; rewrite F3, F2, F1; by apply Hf |];
      rewrite E4; clear E4; crunch
  end.
  flatten_in V4; flatten_in F4; flatten_in M4; flatten_in N4; flatten_in U4;
    flatten_in K4; flatten_in O4; flatten_in L4; flatten_in C4; flatten_in H4.
  unfold db_close.
  rewrite call_ok by (rewrite F4, F3, F2, F1, Hf; reflexivity).
  crunch.
  eexists. split; [reflexivity|]. flatten.
  assert (cursors (db W1) = cursors (db w) ++ [closed]) as K1
    by (rewrite D1; cbn [set_cursors cursors];
        rewrite !list_insert_insert_eq; apply insert_fresh).
  assert (Notifications (db W1) = Notifications (db w)) as N1
    by (by rewrite D1).
  assert (uncommitted (db W1) = uncommitted (db w)) as U1
    by (by rewrite D1).
  clear D1.
  rewrite ?K4, ?N4, ?H4, ?M4, ?O4, ?L4, ?C4.
  rewrite ?M3, ?D3, ?H3, ?O3, ?L3, ?C3, ?V3.
  rewrite ?K2, ?N2, ?U2, ?H2, ?M2, ?O2, ?L2, ?C2, ?V2.
  rewrite ?K1, ?N1, ?U1, ?H1, ?M1, ?O1, ?L1, ?C1, ?V1.
  rewrite !length_app. cbn [length]. rewrite !Nat.add_1_r.
  unfold lookups.
  split_and!; rewrite <- ?app_assoc; try reflexivity.
Qed.

Lemma send_claim_resolved_emails_unconfigured_witness :
  ∃ wf,
    send_claim_resolved_emails 42 2 9
      (world_demo (delete "EMAIL_PASS" env_full) healthy) = (Ok tt, wf) ∧
    smtp wf = {| sessions := 0; outbox := [] |} ∧
    Notifications (db wf) =
      [email_row 1 reporter_message; email_row 2 claimant_message].
Proof.
  destruct (send_claim_resolved_emails_unconfigured 42 2 9
              (world_demo (delete "EMAIL_PASS" env_full) healthy)
              1 "Blue Backpack" [] "reporter@back2u.test" "Asha" []
              "claimant@back2u.test" "Ravi" [])
    as (wf & E & _ & S & _ & N & _); try reflexivity.
  exists wf. split; [exact E|]. split; [exact S | exact N].
Defined.

(** X17.  No item with the given id, and the calls on the database go
    through: the run prints the warning, traces "Item not found.", closes
    its cursor and the connection and returns.  It makes four calls on the
    cursor and none on the transport, looks up no user and inserts
    nothing. *)
Theorem send_claim_resolved_emails_item_not_found i cid a w :
  item_rows i (Items (db w)) = [] →
  (∀ hist c, is_mail c = false → faults w hist c = None) →
  let h := length (cursors (db w)) in
  ∃ wf,
    send_claim_resolved_emails i cid a w = (Ok tt, wf) ∧
    history wf = history w ++
      [EvCall (CGetCursor h true) None;
       EvCall (CExecute h (SelectItem i)) None;
       EvCall (CFetchone h) None;
       EvCall (CCursorClose h) None;
       EvCall CDbClose None] ∧
    stdout (out wf) = stdout (out w) ++
      ["Warning: Item with ID " +:+ pretty i +:+ " not found."] ∧
    crash_debug_log (out wf) = crash_debug_log (out w) ++
      ["Starting send_claim_resolved_emails for Item " +:+ pretty i;
       "Getting cursor from thread-local db...";
       "Fetching item info...";
       "Item not found."] ∧
    email_debug_log (out wf) = email_debug_log (out w) ∧
    smtp wf = smtp w ∧
    Notifications (db wf) = Notifications (db w) ∧
    cursors (db wf) = cursors (db w) ++ [closed].
Proof.
  intros Hitem Hf h. subst h.
  unfold send_claim_resolved_emails. rewrite workflow_unfold.
  unfold get_user_email, get_cursor, execute, fetchone, cursor_close,
    row_reported_by, row_title, row_name, row_email.
  unfold print, log_debug, db_close, bind, try_except, try_finally, ret, raise.
  crunch.
  repeat first
    [ ostep_by w ltac:(db_oracle Hf)
    | progress (rewrite ?Hitem); crunch ].
  eexists. split; [reflexivity|]. flatten.
  rewrite !list_insert_insert_eq, insert_fresh.
  split_and!; rewrite <- ?app_assoc; reflexivity.
Qed.

Lemma send_claim_resolved_emails_item_not_found_witness :
  ∃ wf,
    send_claim_resolved_emails 41 2 9 (world_demo env_full healthy)
    = (Ok tt, wf) ∧
    stdout (out wf) = ["Warning: Item with ID 41 not found."] ∧
    cursors (db wf) = [closed].
Proof.
  destruct (send_claim_resolved_emails_item_not_found 41 2 9
              (world_demo env_full healthy))
    as (wf & E & _ & O & _ & _ & _ & _ & C); try reflexivity.
  exists wf. split; [exact E|]. split; [exact O | exact C].
Defined.

(** X18.  The item exists but the reporter or the claimant does not, and
    the calls on the database go through.  Both users are looked up all
    the same, on the one cursor, which is closed before the result is
    examined; each missing user gets its warning, then the run prints that
    it skips the notifications and returns: no call on the transport, no
    insert. *)
Theorem send_claim_resolved_emails_missing_user i cid a w rid title irest rrows crows :
  item_rows i (Items (db w)) = RowItem rid title :: irest →
  user_rows rid (Users (db w)) = rrows →
  user_rows cid (Users (db w)) = crows →
  rrows = [] ∨ crows = [] →
  (∀ hist c, is_mail c = false → faults w hist c = None) →
  let h := length (cursors (db w)) in
  ∃ wf,
    send_claim_resolved_emails i cid a w = (Ok tt, wf) ∧
    history wf = history w ++ lookups h i rid cid ++ [EvCall CDbClose None] ∧
    stdout (out wf) = stdout (out w) ++
      not_found_warning rid rrows ++ not_found_warning cid crows ++
      ["Warning: Missing user data for reporter or claimant. Skipping email notifications."] ∧
    crash_debug_log (out wf) = crash_debug_log (out w) ++
      ["Starting send_claim_resolved_emails for Item " +:+ pretty i;
       "Getting cursor from thread-local db...";
       "Fetching item info...";
       "Fetching reporter " +:+ pretty rid +:+ "...";
       "Fetching claimant " +:+ pretty cid +:+ "...";
       "Closing cursor...";
       "Missing user data."] ∧
    email_debug_log (out wf) = email_debug_log (out w) ∧
    smtp wf = smtp w ∧
    Notifications (db wf) = Notifications (db w) ∧
    cursors (db wf) = cursors (db w) ++ [closed].
Proof.
  intros Hitem Hrep Hcl Hmiss Hf h. subst h.
  unfold send_claim_resolved_emails. rewrite workflow_unfold.
  unfold get_user_email, get_cursor, execute, fetchone, cursor_close,
    row_reported_by, row_title, row_name, row_email.
  unfold print, log_debug, db_close, bind, try_except, try_finally, ret, raise.
  crunch.
  assert (rrows = [] ∨ ∃ r rest, rrows = r :: rest ∧ crows = []) as Hcase.
  { destruct rrows as [|r rest]; [by left|].
    destruct Hmiss as [? | ->]; [done|]. right. eauto. }
  destruct Hcase as [->|(r & rest & -> & ->)].
  - destruct crows as [|c crest].
    all: repeat first
      [ ostep_by w ltac:(db_oracle Hf)
      | progress (rewrite ?Hitem, ?Hrep, ?Hcl); crunch ].
    all: eexists; (split; [reflexivity|]); flatten.
    all: rewrite !list_insert_insert_eq, insert_fresh.
    all: unfold lookups, not_found_warning.
    all: split_and!; rewrite <- ?app_assoc; reflexivity.
  - repeat first
      [ ostep_by w ltac:(db_oracle Hf)
      | progress (rewrite ?Hitem, ?Hrep, ?Hcl); crunch ].
    eexists; (split; [reflexivity|]); flatten.
    rewrite !list_insert_insert_eq, insert_fresh.
    unfold lookups, not_found_warning.
    split_and!; rewrite <- ?app_assoc; reflexivity.
Qed.

Lemma send_claim_resolved_emails_missing_user_witness :
  ∃ wf,
    send_claim_resolved_emails 42 3 9 (world_demo env_full healthy)
    = (Ok tt, wf) ∧
    stdout (out wf) =
      ["Warning: User with ID 3 not found.";
       "Warning: Missing user data for reporter or claimant. Skipping email notifications."] ∧
    smtp wf = {| sessions := 0; outbox := [] |}.
Proof.
  destruct (send_claim_resolved_emails_missing_user 42 3 9
              (world_demo env_full healthy)
              1 "Blue Backpack" []
              [RowUser "reporter@back2u.test" "Asha"] [])
    as (wf & E & _ & O & _ & _ & S & _); try reflexivity.
  - by right.
  - exists wf. split; [exact E|]. split; [exact O | exact S].
Defined.
